(** * neural_sp: RNN language model, training-step updater, character evaluator

    A shallow embedding of
    - [models/pytorch_v3/lm/rnnlm.py]   (class [RNNLM]),
    - [utils/training/updater.py]       (class [Updater]),
    - [neural_sp/evaluators/character.py] (function [eval_char]),
    followed by the properties of the specification that concern them.

    Conventions.  Token ids and Python integers are [Z]; list lengths and
    loop counters are [nat].  Python exceptions are the constructors of
    [exn]; a computation that may raise returns an [outcome].  Objects that
    are mutated in place are threaded explicitly as state. *)

From Stdlib Require Import String Ascii.
From Stdlib Require Import ZArith QArith List Bool Arith Lia Permutation Sorted.
Import ListNotations.

Close Scope Q_scope.

Set Warnings "-register-all".

Local Open Scope string_scope.
Local Open Scope list_scope.

(* ================================================================== *)
(** * Python outcomes *)
(* ================================================================== *)

Module Py.

(** The exception classes that the three source files can raise. *)
Inductive exn : Type :=
| ValueError (msg : string)
| NotImplementedError
| RuntimeError
| IndexError
| NameError (name : string)
| UnboundLocalError (name : string)
| ZeroDivisionError.

Inductive outcome (A : Type) : Type :=
| Ok (a : A)
| Raise (e : exn).
Arguments Ok {A} a.
Arguments Raise {A} e.

Definition bind {A B : Type} (c : outcome A) (k : A -> outcome B) : outcome B :=
  match c with
  | Ok a => k a
  | Raise e => Raise e
  end.

(** [isinstance(e, RuntimeError)], the test of [except RuntimeError]: among
    the classes above it holds of [RuntimeError] itself and of its subclass
    [NotImplementedError].  ([UnboundLocalError] derives from [NameError],
    [IndexError] from [LookupError], [ZeroDivisionError] from
    [ArithmeticError].) *)
Definition is_runtime_error (e : exn) : bool :=
  match e with
  | RuntimeError | NotImplementedError => true
  | _ => false
  end.

(** Python values, as far as the shape of a returned object matters:
    integers, lists (also used for 1-d arrays) and tuples. *)
Inductive value : Type :=
| VInt (z : Z)
| VList (items : list value)
| VTuple (items : list value).

(** [xs[i]] for [0 <= i]: [IndexError] when out of range. *)
Definition index {A : Type} (xs : list A) (i : nat) : outcome A :=
  match nth_error xs i with
  | Some x => Ok x
  | None => Raise IndexError
  end.

(** [xs[-k]] for [k >= 1]. *)
Definition index_from_end {A : Type} (xs : list A) (k : nat) : outcome A :=
  if (k <=? length xs)%nat then index xs (length xs - k) else Raise IndexError.

(** [xs[:-k]]: never raises. *)
Definition drop_last {A : Type} (xs : list A) (k : nat) : list A :=
  firstn (length xs - k) xs.

(** [[f(x) for x in xs]] where [f] may raise. *)
Fixpoint map_outcome {A B : Type} (f : A -> outcome B) (xs : list A)
  : outcome (list B) :=
  match xs with
  | [] => Ok []
  | x :: xs' =>
      bind (f x) (fun y => bind (map_outcome f xs') (fun ys => Ok (y :: ys)))
  end.

End Py.

Import Py.

Declare Scope py_scope.
Delimit Scope py_scope with py.
Notation "x <- c ;; k" := (Py.bind c (fun x => k))
  (at level 61, c at next level, right associativity) : py_scope.
Notation "c ;;; k" := (Py.bind c (fun _ => k))
  (at level 61, right associativity) : py_scope.

(* ================================================================== *)
(** * models/pytorch_v3/lm/rnnlm.py *)
(* ================================================================== *)

Module Rnnlm.

Local Open Scope py_scope.

(** ** Construction ([RNNLM.__init__]) *)

(** The constructor's arguments.  The dropout probabilities and the
    initialisation scale are floats that no branch inspects; they are
    left out. *)
Record config : Type := {
  cfg_embedding_dim : Z;
  cfg_rnn_type : string;
  cfg_bidirectional : bool;
  cfg_num_units : Z;
  cfg_num_layers : Z;
  cfg_num_classes : Z;
  cfg_recurrent_weight_orthogonal : bool;
  cfg_init_forget_gate_bias_with_one : bool;
  cfg_tie_weights : bool
}.

Inductive cell : Type := LSTM | GRU | RNN.

(** The attributes that [__init__] sets on [self]. *)
Record rnnlm : Type := {
  model_type : string;
  embedding_dim : Z;
  rnn_type : string;
  bidirectional : bool;
  num_directions : Z;
  num_units : Z;
  num_layers : Z;
  tie_weights : bool;
  num_classes : Z;
  sos : Z;
  eos : Z;
  rnn_cell : cell;
  training : bool
}.

(** The double-quote character, for the messages that contain it. *)
Definition dq : string := String (ascii_of_nat 34) EmptyString.

Definition rnn_type_message : string :=
  "rnn_type must be " ++ dq ++ "lstm" ++ dq ++ " or " ++ dq ++ "gru" ++ dq
    ++ " or " ++ dq ++ "rnn" ++ dq ++ ".".

Definition tied_message : string :=
  "When using the tied flag, num_units must be equal to embedding_dim".

(** Lines 81-108: the recurrent layer is chosen by [rnn_type]. *)
Definition select_cell (rnn_type : string) : outcome cell :=
  if String.eqb rnn_type "lstm" then Ok LSTM
  else if String.eqb rnn_type "gru" then Ok GRU
  else if String.eqb rnn_type "rnn" then Ok RNN
  else Raise (ValueError rnn_type_message).

(** Lines 120-126.  The [raise NotImplementedError] is the first
    statement of the branch; the dimension check and the assignment that
    follow it in the source are kept here, behind the raise. *)
Definition tie_output_to_embedding (c : config) : outcome unit :=
  if cfg_tie_weights c then
    (Raise NotImplementedError : outcome unit) ;;;
    (if negb (cfg_num_units c =? cfg_embedding_dim c)%Z
     then Raise (ValueError tied_message)
     else Ok tt)
  else Ok tt.

(** [RNNLM.__init__].  The constructors of the layers ([Embedding],
    [nn.LSTM], [nn.GRU], [nn.RNN], [LinearND]) and [init_weights] build
    parameter tensors; they are taken to succeed and their tensors are
    not represented.  What is kept is every attribute assignment and
    every [raise] of the constructor itself, in source order. *)
Definition init (c : config) : outcome rnnlm :=
  kind <- select_cell (cfg_rnn_type c) ;;
  tie_output_to_embedding c ;;;
  Ok {| model_type := "rnnlm";
        embedding_dim := cfg_embedding_dim c;
        rnn_type := cfg_rnn_type c;
        bidirectional := cfg_bidirectional c;
        num_directions := if cfg_bidirectional c then 2 else 1;
        num_units := cfg_num_units c;
        num_layers := cfg_num_layers c;
        tie_weights := cfg_tie_weights c;
        num_classes := cfg_num_classes c + 1;
        sos := cfg_num_classes c;
        eos := cfg_num_classes c;
        rnn_cell := kind;
        training := true |}.

Definition set_training (m : rnnlm) (flag : bool) : rnnlm :=
  {| model_type := model_type m;
     embedding_dim := embedding_dim m;
     rnn_type := rnn_type m;
     bidirectional := bidirectional m;
     num_directions := num_directions m;
     num_units := num_units m;
     num_layers := num_layers m;
     tie_weights := tie_weights m;
     num_classes := num_classes m;
     sos := sos m;
     eos := eos m;
     rnn_cell := rnn_cell m;
     training := flag |}.

(** ** Batch preparation (lines 169-189 of [forward]) *)

(** [sorted(xs, key=key, reverse=True)].  Python's sort is stable, also
    under [reverse=True]: among equal keys the input order is kept.  A
    stable sort has one possible result, computed here by insertion: an
    element goes behind the elements whose key is strictly larger. *)
Fixpoint insert_desc {A : Type} (key : A -> nat) (x : A) (l : list A) : list A :=
  match l with
  | [] => [x]
  | y :: l' =>
      if (key x <? key y)%nat then y :: insert_desc key x l'
      else x :: l
  end.

Definition sorted_desc {A : Type} (key : A -> nat) (xs : list A) : list A :=
  fold_right (insert_desc key) [] xs.

(** [ys[i]] for an index produced by [range(len(ys))]. *)
Definition item (ys : list (list Z)) (i : nat) : list Z := nth i ys [].

(** Lines 170-171. *)
Definition perm_idx (ys : list (list Z)) : list nat :=
  sorted_desc (fun i => length (item ys i)) (seq 0 (length ys)).

Definition max_time (xs : list (list Z)) : nat :=
  fold_right Nat.max 0%nat (map (@length Z) xs).

(** Modelled from the spec: [pad_list] of [models/pytorch_v3/utils.py],
    which is not among the sources.  The spec's PaddedTensor is "a
    rectangular (batch x max_length) integer array produced by
    right-padding each TokenSequence with a designated pad value". *)
Definition pad_list (xs : list (list Z)) (pad_value : Z) : list (list Z) :=
  map (fun x => x ++ repeat pad_value (max_time xs - length x)) xs.

(** What the preparation stage has computed when line 189 is reached. *)
Record prepared : Type := {
  p_perm_idx : list nat;
  p_y_lens : list nat;
  p_ys_in : list (list Z);
  p_ys_out : list (list Z)
}.

(** Lines 169-189.  [ys[0]] on line 180 raises [IndexError] for an empty
    batch; the sort on lines 170-172 has already run by then. *)
Definition prepare (m : rnnlm) (ys0 : list (list Z)) : outcome prepared :=
  let perm := perm_idx ys0 in
  let ys := map (item ys0) perm in
  let y_lens := map (fun y => (length y + 1)%nat) ys in
  _ <- index ys 0 ;;
  let sos_v := sos m in
  let eos_v := eos m in
  let ys_in := map (fun y => [sos_v] ++ y) ys in
  let ys_out := map (fun y => y ++ [eos_v]) ys in
  Ok {| p_perm_idx := perm;
        p_y_lens := y_lens;
        p_ys_in := pad_list ys_in (eos m);
        p_ys_out := pad_list ys_out (-1) |}.

(** ** Loss ([forward], lines 160-213) *)

(** Shape of a rectangular tensor kept as a list of rows. *)
Definition size0 {A : Type} (t : list (list A)) : nat := length t.
Definition size1 {A : Type} (t : list (list A)) : nat := length (hd [] t).

Section Forward.

(** Scores and losses are floating-point numbers.  Nothing below
    depends on how they are rounded: they are kept abstract, with the
    operations that the loss applies to them. *)
Variable Score : Type.
Variable Real : Type.
Variable rzero : Real.
Variable radd : Real -> Real -> Real.
Variable rdiv : Real -> Z -> Real.

(** [nll x k]: the negative log-likelihood of class [k] under the
    scores [x], the summand of [F.cross_entropy]. *)
Variable nll : list Score -> Z -> Real.

(** Lines 192-205: embedding, packing by the true lengths, the
    recurrent stack, unpacking and the output projection.
    [logits_at training ys_in y_lens b t] is the score vector of
    example [b] at time [t]; the tensor [logits] has one row per
    example and [max(y_lens)] time steps. *)
Variable logits_at : bool -> list (list Z) -> list nat -> nat -> nat -> list Score.

Definition logits_of (training : bool) (p : prepared) : list (list (list Score)) :=
  map (fun b =>
         map (logits_at training (p_ys_in p) (p_y_lens p) b)
             (seq 0 (fold_right Nat.max 0%nat (p_y_lens p))))
      (seq 0 (length (p_ys_in p))).

(** [F.cross_entropy(input, target, ignore_index, size_average=False)]:
    the sum of [nll] over the rows whose target is not [ignore_index]. *)
Definition cross_entropy (input : list (list Score)) (target : list Z)
           (ignore_index : Z) : Real :=
  fold_left (fun acc xk =>
               if (snd xk =? ignore_index)%Z then acc
               else radd acc (nll (fst xk) (snd xk)))
            (combine input target) rzero.

(** [forward]: the mode switch of lines 160-163 is an update of the
    model object, returned with the loss. *)
Definition forward (m : rnnlm) (ys : list (list Z)) (is_eval : bool)
  : rnnlm * outcome Real :=
  let m := set_training m (negb is_eval) in
  (m,
   p <- prepare m ys ;;
   let logits := logits_of (training m) p in
   let ys_out := p_ys_out p in
   Ok (rdiv (cross_entropy (concat logits) (concat ys_out) (-1))
            (Z.of_nat (size0 ys_out) * Z.of_nat (size1 ys_out)))).

(** The loss in the words of the specification: the cross-entropy
    summed over the (batch x time) positions whose target is not the
    ignore marker.  [logit b t] and [target b t] are the entries of
    the two tensors; the positions are visited rows first. *)
Definition masked_sum (logit : nat -> nat -> list Score) (target : nat -> nat -> Z)
           (batch_size max_time : nat) : Real :=
  fold_left (fun acc bt =>
               if (target (fst bt) (snd bt) =? -1)%Z then acc
               else radd acc (nll (logit (fst bt) (snd bt))
                                  (target (fst bt) (snd bt))))
            (list_prod (seq 0 batch_size) (seq 0 max_time)) rzero.

End Forward.

(** The number of real tokens of a prepared batch: the targets that are
    not padding. *)
Definition real_tokens (p : prepared) : nat :=
  length (filter (fun k => negb (k =? -1)%Z) (concat (p_ys_out p))).

(** ** Greedy decoding ([decode], lines 249-315) *)

(** [xs[b] = v] for [b] in range. *)
Fixpoint set_nth {A : Type} (b : nat) (v : A) (xs : list A) : list A :=
  match xs, b with
  | [], _ => []
  | _ :: xs', O => v :: xs'
  | x :: xs', S b' => x :: set_nth b' v xs'
  end.

Section Decode.

Variable Score : Type.
(** [score_ltb a b]: [a < b] on scores. *)
Variable score_ltb : Score -> Score -> bool.

(** The three layers, per example: in evaluation mode (dropout off)
    each row of the batch is processed independently of the others.
    The recurrent layer takes [None] for the default start state. *)
Variable Emb Out Hidden : Type.
Variable embed : Z -> Emb.
Variable rnn : Emb -> option Hidden -> Out * Hidden.
Variable output : Out -> list Score.

(** [torch.max(x, dim=1)[1]] on one row: the index of the first
    largest score. *)
Fixpoint argmax_from (best_i : nat) (best : Score) (i : nat) (xs : list Score) : nat :=
  match xs with
  | [] => best_i
  | x :: xs' =>
      if score_ltb best x then argmax_from i x (S i) xs'
      else argmax_from best_i best (S i) xs'
  end.

Definition argmax (xs : list Score) : Z :=
  match xs with
  | [] => 0
  | x :: xs' => Z.of_nat (argmax_from 0 x 1 xs')
  end.

(** The hidden state of example [b] inside the batch state [h]. *)
Definition hx_at (h : option (list Hidden)) (b : nat) : option Hidden :=
  match h with
  | None => None
  | Some hs => nth_error hs b
  end.

(** Lines 280-289 for the whole batch: embedding, one recurrent step,
    projection, 1-best. *)
Definition step_batch (y_in : list Z) (h : option (list Hidden))
  : list Z * option (list Hidden) :=
  let r := map (fun by_ => let o := rnn (embed (snd by_)) (hx_at h (fst by_)) in
                           (argmax (output (fst o)), snd o))
               (combine (seq 0 (length y_in)) y_in) in
  (map fst r, Some (map snd r)).

(** Lines 293-298, one round of the inner loop. *)
Definition count_one (eos_id : Z) (y_in : list Z)
           (st : list bool * list nat) (b : nat) : list bool * list nat :=
  let eos_flag := fst st in
  let y_lens := snd st in
  if negb (nth b eos_flag false) then
    let eos_flag := if (nth b y_in 0 =? eos_id)%Z
                    then set_nth b true eos_flag else eos_flag in
    (eos_flag, set_nth b (nth b y_lens 0 + 1)%nat y_lens)
  else st.

Definition count_lengths (eos_id : Z) (batch_size : nat) (y_in : list Z)
           (eos_flag : list bool) (y_lens : list nat) : list bool * list nat :=
  fold_left (count_one eos_id y_in) (seq 0 batch_size) (eos_flag, y_lens).

(** [sum(eos_flag)]. *)
Definition sum_flags (eos_flag : list bool) : nat :=
  fold_right (fun (f : bool) n => if f then S n else n) 0%nat eos_flag.

Record loop_state : Type := {
  ls_y_in : list Z;
  ls_h : option (list Hidden);
  ls_best_hyps : list (list Z);
  ls_eos_flag : list bool;
  ls_y_lens : list nat
}.

(** Lines 279-302: [for t in range(max_decode_len)], with the [break]. *)
Fixpoint decode_loop (eos_id : Z) (batch_size : nat) (steps : nat)
         (st : loop_state) : loop_state :=
  match steps with
  | O => st
  | S steps' =>
      let yh := step_batch (ls_y_in st) (ls_h st) in
      let y_in := fst yh in
      let best := ls_best_hyps st ++ [y_in] in
      let fl := count_lengths eos_id batch_size y_in
                              (ls_eos_flag st) (ls_y_lens st) in
      let st' := {| ls_y_in := y_in; ls_h := snd yh; ls_best_hyps := best;
                    ls_eos_flag := fst fl; ls_y_lens := snd fl |} in
      if (sum_flags (fst fl) =? batch_size)%nat then st'
      else decode_loop eos_id batch_size steps' st'
  end.

(** [torch.cat(cols, dim=1)] of [B x 1] columns: an empty list of
    tensors is an error. *)
Definition cat_columns (batch_size : nat) (cols : list (list Z))
  : outcome (list (list Z)) :=
  match cols with
  | [] => Raise RuntimeError
  | _ :: _ =>
      Ok (map (fun b => map (fun col : list Z => nth b col 0%Z) cols)
              (seq 0 batch_size))
  end.

(** [decode].  [range(n)] is empty for [n <= 0]. *)
Definition decode (m : rnnlm) (start_tokens : list Z) (max_decode_len : Z)
  : rnnlm * outcome (list (list Z)) :=
  let m := set_training m false in
  let batch_size := length start_tokens in
  let ys := map (fun y => [y]) start_tokens in
  let y_lens := repeat 1%nat batch_size in
  let y_in := map (hd (-1)%Z) (pad_list ys (-1)) in
  let st := decode_loop (eos m) batch_size (Z.to_nat max_decode_len)
              {| ls_y_in := y_in; ls_h := None; ls_best_hyps := [];
                 ls_eos_flag := repeat false batch_size;
                 ls_y_lens := y_lens |} in
  (m,
   hyps <- cat_columns batch_size (ls_best_hyps st) ;;
   Ok (map (fun b => firstn (nth b (ls_y_lens st) 0%nat) (nth b hyps []))
           (seq 0 batch_size))).

(** The object that [return best_hyps] hands to the caller: a list
    with one array of token ids per example. *)
Definition returned (best_hyps : list (list Z)) : value :=
  VList (map (fun hyp => VList (map VInt hyp)) best_hyps).

Definition decode_return (m : rnnlm) (start_tokens : list Z) (max_decode_len : Z)
  : outcome value :=
  hyps <- snd (decode m start_tokens max_decode_len) ;;
  Ok (returned hyps).

(** *** Greedy decoding of one example on its own

    The reference against which the batched loop is compared: the
    tokens a single example produces when it is fed its own previous
    choice, step after step. *)
Definition greedy_next (tok : Z) (h : option Hidden) : Z * Hidden :=
  let o := rnn (embed tok) h in (argmax (output (fst o)), snd o).

Fixpoint greedy_from (tok : Z) (h : option Hidden) (n : nat) : list Z :=
  match n with
  | O => []
  | S n' =>
      let r := greedy_next tok h in
      fst r :: greedy_from (fst r) (Some (snd r)) n'
  end.

Definition greedy (start_token : Z) (n : nat) : list Z :=
  greedy_from start_token None n.

(** The number of tokens up to and including the first [eos_id], or
    all of them when there is none. *)
Fixpoint counted (eos_id : Z) (toks : list Z) : nat :=
  match toks with
  | [] => 0
  | x :: toks' => if (x =? eos_id)%Z then 1 else S (counted eos_id toks')
  end.

Definition has_eos (eos_id : Z) (toks : list Z) : bool :=
  existsb (fun x => (x =? eos_id)%Z) toks.

End Decode.

End Rnnlm.

(* ================================================================== *)
(** * utils/training/updater.py *)
(* ================================================================== *)

Module Updater.

(** A Python float, as far as line 94 distinguishes them. *)
Inductive pyfloat : Type :=
| Finite (q : Q)
| PosInf
| NegInf
| NaN.

Definition INF : pyfloat := PosInf.

(** [-x] and [x == y] on floats ([nan] equals nothing). *)
Definition fneg (x : pyfloat) : pyfloat :=
  match x with
  | Finite q => Finite (Qopp q)
  | PosInf => NegInf
  | NegInf => PosInf
  | NaN => NaN
  end.

Definition feqb (x y : pyfloat) : bool :=
  match x, y with
  | Finite p, Finite q => Qeq_bool p q
  | PosInf, PosInf => true
  | NegInf, NegInf => true
  | _, _ => false
  end.

(** [Updater.__init__]. *)
Record updater : Type := {
  clip_grad_norm : Q;
  backend : string
}.

Section Call.

(** One input sequence is a list of frames; targets are opaque. *)
Variable Frame Target : Type.

Record batch : Type := {
  xs : list (list Frame);
  ys : list Target
}.

(** The model object: its parameters, the gradients accumulated on
    them, and the device it lives on.  [Updater.__call__] reaches both
    through [model] and [model.optimizer]. *)
Variable Params Grads Loss : Type.

Record model : Type := {
  params : Params;
  grads : Grads;
  device_id : Z
}.

Definition with_grads (m : model) (g : Grads) : model :=
  {| params := params m; grads := g; device_id := device_id m |}.

Definition with_params (m : model) (p : Params) : model :=
  {| params := p; grads := grads m; device_id := device_id m |}.

(** The operations of the two backends.  Each is written as the effect
    it has on the parts of the model it touches; one that can raise
    returns the state it leaves behind together with the outcome.
    - [model_call p b is_eval]: [model(batch['xs'], batch['ys'],
      is_eval=...)], reads the parameters;
    - [backward l g]: [loss.backward()], accumulates into the gradients;
    - [zero_grad g]: [optimizer.zero_grad()] and [cleargrads()];
    - [clip c g]: [torch.nn.utils.clip_grad_norm(parameters, c)],
      rescales the gradients;
    - [optimizer_step p g]: [optimizer.step()] and [optimizer.update()],
      writes the parameters;
    - [loss_data l]: [loss.data[0]] and [loss.data]. *)
Variable model_call : Params -> batch -> bool -> outcome Loss.
Variable backward : Loss -> Grads -> Grads * outcome unit.
Variable zero_grad : Grads -> Grads.
Variable clip : Q -> Grads -> Grads.
Variable optimizer_step : Params -> Grads -> Params * outcome unit.
Variable loss_data : Loss -> pyfloat.

(** Statements that update [model] in place and may raise. *)
Definition stmt (A : Type) : Type := model -> model * outcome A.

Definition ret {A : Type} (a : A) : stmt A := fun m => (m, Ok a).

Definition raise {A : Type} (e : exn) : stmt A := fun m => (m, Raise e).

Definition seq_stmt {A B : Type} (c : stmt A) (k : A -> stmt B) : stmt B :=
  fun m =>
    match c m with
    | (m', Ok a) => k a m'
    | (m', Raise e) => (m', Raise e)
    end.

(** [try: body except RuntimeError: handler]; the handler continues
    with the value [dflt] that the assigned variable held before. *)
Definition try_except_runtime {A : Type} (body : stmt A) (handler : stmt unit)
           (dflt : A) : stmt A :=
  fun m =>
    match body m with
    | (m', Ok a) => (m', Ok a)
    | (m', Raise e) =>
        if is_runtime_error e
        then seq_stmt handler (fun _ => ret dflt) m'
        else (m', Raise e)
    end.

Definition do_zero_grad : stmt unit :=
  fun m => (with_grads m (zero_grad (grads m)), Ok tt).

(** [torch.cuda.empty_cache()] releases cached device memory; it has
    no effect on the model. *)
Definition empty_cache_if_gpu : stmt unit :=
  fun m => if (device_id m >=? 0)%Z then (m, Ok tt) else (m, Ok tt).

Definition do_model_call (b : batch) (is_eval : bool) : stmt Loss :=
  fun m => (m, model_call (params m) b is_eval).

Definition do_backward (l : Loss) : stmt unit :=
  fun m => let r := backward l (grads m) in (with_grads m (fst r), snd r).

Definition do_clip (c : Q) : stmt unit :=
  fun m => (with_grads m (clip c (grads m)), Ok tt).

Definition do_optimizer_step : stmt unit :=
  fun m => let r := optimizer_step (params m) (grads m) in
           (with_params m (fst r), snd r).

Local Notation "x <~ c ;; k" := (seq_stmt c (fun x => k))
  (at level 61, c at next level, right associativity).
Local Notation "c ;;> k" := (seq_stmt c (fun _ => k))
  (at level 61, right associativity).

(** Lines 51-69. *)
Definition pytorch_step (u : updater) (b : batch) (is_eval : bool) : stmt pyfloat :=
  loss <~ (if is_eval then
             do_model_call b true
           else
             do_zero_grad ;;>
             empty_cache_if_gpu ;;>
             loss <~ do_model_call b false ;;
             do_backward loss ;;>
             (if Qlt_le_dec 0 (clip_grad_norm u)
              then do_clip (clip_grad_norm u) else ret tt) ;;>
             do_optimizer_step ;;>
             ret loss) ;;
  ret (loss_data loss).

(** Lines 71-80. *)
Definition chainer_step (b : batch) (is_eval : bool) : stmt pyfloat :=
  loss <~ (if is_eval then
             do_zero_grad ;;>
             loss <~ do_model_call b false ;;
             do_backward loss ;;>
             do_optimizer_step ;;>
             ret loss
           else
             do_model_call b true) ;;
  ret (loss_data loss).

(** Lines 49-82, the body of the [try].  With any other backend no
    branch binds [loss], and [del loss] fails. *)
Definition try_body (u : updater) (b : batch) (is_eval : bool) : stmt pyfloat :=
  if String.eqb (backend u) "pytorch" then pytorch_step u b is_eval
  else if String.eqb (backend u) "chainer" then chainer_step b is_eval
  else raise (UnboundLocalError "loss").

(** [max(len(x) for x in batch['xs'])]. *)
Definition max_frame_num (b : batch) : outcome nat :=
  match xs b with
  | [] => Raise (ValueError "max() arg is an empty sequence")
  | x :: rest => Ok (fold_left Nat.max (map (@length Frame) rest) (length x))
  end.

(** Lines 84-92.  The arguments of the log message are computed
    before anything is cleared. *)
Definition except_handler (u : updater) (b : batch) : stmt unit :=
  (fun m => (m, Py.bind (max_frame_num b) (fun _ => Ok tt))) ;;>
  (if String.eqb (backend u) "pytorch" then
     do_zero_grad ;;> empty_cache_if_gpu
   else if String.eqb (backend u) "chainer" then
     do_zero_grad
   else ret tt).

(** Lines 94-97. *)
Definition sanitize (loss_val : pyfloat) : pyfloat :=
  if feqb loss_val INF || feqb loss_val (fneg INF) then Finite 0 else loss_val.

(** [Updater.__call__]: the model after the call, and the returned
    loss value or the exception that left the call. *)
Definition call (u : updater) (m : model) (b : batch) (is_eval : bool)
  : model * outcome pyfloat :=
  (loss_val <~ try_except_runtime (try_body u b is_eval) (except_handler u b)
                                  (Finite 0) ;;
   ret (sanitize loss_val)) m.

End Call.

End Updater.

(* ================================================================== *)
(** * neural_sp/evaluators/character.py *)
(* ================================================================== *)

Module Character.

Local Open Scope py_scope.

(** ** String helpers *)

(** [needle in hay]. *)
Fixpoint contains (needle hay : string) : bool :=
  String.prefix needle hay
  || match hay with
     | EmptyString => false
     | String _ hay' => contains needle hay'
     end.

(** [s.replace(a, b)] for single characters. *)
Fixpoint replace_char (a b : ascii) (s : string) : string :=
  match s with
  | EmptyString => EmptyString
  | String c s' => String (if Ascii.eqb c a then b else c) (replace_char a b s')
  end.

(** [s.replace(a, '')] for a single character. *)
Fixpoint remove_char (a : ascii) (s : string) : string :=
  match s with
  | EmptyString => EmptyString
  | String c s' => if Ascii.eqb c a then remove_char a s'
                   else String c (remove_char a s')
  end.

(** [s.split(sep)] for a single character: never empty. *)
Fixpoint split (sep : ascii) (s : string) : list string :=
  match s with
  | EmptyString => [EmptyString]
  | String c s' =>
      if Ascii.eqb c sep then EmptyString :: split sep s'
      else match split sep s' with
           | [] => [String c EmptyString]
           | w :: ws => String c w :: ws
           end
  end.

(** [sep.join(parts)]. *)
Fixpoint join (sep : string) (parts : list string) : string :=
  match parts with
  | [] => EmptyString
  | [w] => w
  | w :: ws => (w ++ sep ++ join sep ws)%string
  end.

(** [list(s)]: one one-character string per character. *)
Definition chars (s : string) : list string :=
  map (fun c => String c EmptyString) (list_ascii_of_string s).

(** The newline character. *)
Definition nl : string := String (ascii_of_nat 10) EmptyString.

(** ** Names *)

(** The names bound at module level (lines 13-23) and the names bound
    inside [eval_char]: its arguments and every assignment target of its
    body.  Line 75, [# task_index = 0], is a comment and binds nothing. *)
Definition module_names : list string :=
  ["logging"; "six"; "tqdm"; "compute_wer"; "mkdir_join"; "logger"; "eval_char"].

Definition local_names : list string :=
  ["models"; "dataset"; "decode_params"; "epoch"; "decode_dir"; "progressbar";
   "model"; "ref_trn_save_path"; "hyp_trn_save_path"; "wer"; "cer";
   "num_sub_w"; "num_ins_w"; "num_del_w"; "num_sub_c"; "num_ins_c"; "num_del_c";
   "num_words"; "num_chars"; "pbar"; "f_hyp"; "f_ref"; "batch"; "is_new_epoch";
   "best_hyps"; "_"; "perm_idx"; "ys"; "b"; "ref"; "hyp"; "speaker"; "start";
   "end"; "wer_b"; "sub_b"; "ins_b"; "del_b"; "cer_b"].

(** Reading a name that is neither local nor global raises [NameError]. *)
Definition read_name {A : Type} (name : string) (v : A) : outcome A :=
  if existsb (String.eqb name) (local_names ++ module_names) then Ok v
  else Raise (NameError name).

(** ** The evaluation loop *)

Record stats : Type := {
  st_wer : Q; st_sub_w : Q; st_ins_w : Q; st_del_w : Q;
  st_cer : Q; st_sub_c : Q; st_ins_c : Q; st_del_c : Q;
  st_num_words : Q; st_num_chars : Q;
  st_ref_trn : list string;
  st_hyp_trn : list string
}.

(** Lines 63-66, and the two transcript files just opened. *)
Definition stats0 : stats :=
  {| st_wer := 0; st_sub_w := 0; st_ins_w := 0; st_del_w := 0;
     st_cer := 0; st_sub_c := 0; st_ins_c := 0; st_del_c := 0;
     st_num_words := 0; st_num_chars := 0;
     st_ref_trn := []; st_hyp_trn := [] |}.

Section EvalChar.

(** The collaborators: input features, the model with its [decode],
    the dataset's [idx2char], and [compute_wer] (called with
    [normalize=False]). *)
Variable Feature Hyp Model : Type.
Variable model_decode : Model -> list Feature -> list Hyp * list nat.
Variable idx2char : Hyp -> string.
Variable compute_wer : list string -> list string -> Q * Q * Q * Q.

Record batch : Type := {
  xs : list Feature;
  ys : list string;
  utt_ids : list string
}.

(** One pass over the dataset: [next] hands out [first_batches] one by
    one with [is_new_epoch = False], then [last_batch] with
    [is_new_epoch = True]. *)
Record dataset : Type := {
  label_type : string;
  label_type_sub : string;
  first_batches : list batch;
  last_batch : batch
}.

(** Lines 93 and 128: the word-level condition
    [('character' in label_type and 'nowb' not in label_type)
      or (task_index > 0 and label_type_sub == 'character')],
    with Python's left-to-right, short-circuit evaluation. *)
Definition character_labels (d : dataset) : bool :=
  contains "character" (label_type d) && negb (contains "nowb" (label_type d)).

Definition word_level (d : dataset) : outcome bool :=
  if character_labels d then Ok true
  else
    task_index <- read_name "task_index" 0%Z ;;
    Ok ((0 <? task_index)%Z && String.eqb (label_type_sub d) "character").

(** Lines 83-85. *)
Definition trn_suffix (utt_id : string) : outcome string :=
  let fields := split "_" (replace_char "-" "_" utt_id) in
  let speaker := join "_" (drop_last fields 2) in
  start <- index_from_end fields 2 ;;
  end_ <- index_from_end fields 1 ;;
  Ok (" (" ++ speaker ++ "-" ++ start ++ "-" ++ end_ ++ ")" ++ nl)%string.

(** Lines 79-117: one utterance. *)
Definition eval_utt (d : dataset) (bt : batch) (best_hyps : list Hyp)
           (ys_perm : list string) (s : stats) (b : nat) : outcome stats :=
  ref <- index ys_perm b ;;
  h <- index best_hyps b ;;
  let hyp := idx2char h in
  utt <- index (utt_ids bt) b ;;
  suffix <- trn_suffix utt ;;
  let ref_trn := st_ref_trn s ++ [(ref ++ suffix)%string] in
  let hyp_trn := st_hyp_trn s ++ [(hyp ++ suffix)%string] in
  word <- word_level d ;;
  let '(wer, sub_w, ins_w, del_w, num_words) :=
    if (word : bool) then
      let '(wer_b, sub_b, ins_b, del_b) :=
        compute_wer (split " " ref) (split " " hyp) in
      ((st_wer s + wer_b)%Q, (st_sub_w s + sub_b)%Q, (st_ins_w s + ins_b)%Q,
       (st_del_w s + del_b)%Q,
       (st_num_words s + inject_Z (Z.of_nat (length (split " " ref))))%Q)
    else (st_wer s, st_sub_w s, st_ins_w s, st_del_w s, st_num_words s) in
  let '(cer_b, sub_b, ins_b, del_b) :=
    compute_wer (chars (remove_char " " ref)) (chars (remove_char " " hyp)) in
  Ok {| st_wer := wer; st_sub_w := sub_w; st_ins_w := ins_w; st_del_w := del_w;
        st_cer := (st_cer s + cer_b)%Q; st_sub_c := (st_sub_c s + sub_b)%Q;
        st_ins_c := (st_ins_c s + ins_b)%Q; st_del_c := (st_del_c s + del_b)%Q;
        st_num_words := num_words;
        st_num_chars := (st_num_chars s + inject_Z (Z.of_nat (String.length ref)))%Q;
        st_ref_trn := ref_trn; st_hyp_trn := hyp_trn |}.

(** [for b in range(n)], threading the accumulators. *)
Fixpoint for_range (body : stats -> nat -> outcome stats) (bs : list nat)
         (s : stats) : outcome stats :=
  match bs with
  | [] => Ok s
  | b :: bs' => s' <- body s b ;; for_range body bs' s'
  end.

(** Lines 72-117: one batch. *)
Definition eval_batch (d : dataset) (model : Model) (s : stats) (bt : batch)
  : outcome stats :=
  let '(best_hyps, perm_idx) := model_decode model (xs bt) in
  ys_perm <- map_outcome (index (ys bt)) perm_idx ;;
  for_range (eval_utt d bt best_hyps ys_perm) (seq 0 (length (xs bt))) s.

(** Lines 71-120: [while True: ... if is_new_epoch: break]. *)
Fixpoint eval_batches (d : dataset) (model : Model) (s : stats)
         (pending : list batch) : outcome stats :=
  match pending with
  | [] => eval_batch d model s (last_batch d)
  | bt :: pending' =>
      s' <- eval_batch d model s bt ;;
      eval_batches d model s' pending'
  end.

(** [a / b] with [from __future__ import division]. *)
Definition true_div (a b : Q) : outcome Q :=
  if Qeq_bool b 0 then Raise ZeroDivisionError else Ok (a / b)%Q.

(** [eval_char].  The transcript paths, the progress bar and the
    logger calls have no effect on what is returned or raised and are
    left out; [decode_params] only reaches them and [model.decode]. *)
Definition eval_char (models : list Model) (d : dataset)
  : outcome ((Q * Q * Q * Q) * (Q * Q * Q * Q)) :=
  model <- index models 0 ;;
  s <- eval_batches d model stats0 (first_batches d) ;;
  word <- word_level d ;;
  w <- (if (word : bool) then
          wer <- true_div (st_wer s) (st_num_words s) ;;
          sub_w <- true_div (st_sub_w s) (st_num_words s) ;;
          ins_w <- true_div (st_ins_w s) (st_num_words s) ;;
          del_w <- true_div (st_del_w s) (st_num_words s) ;;
          Ok (wer, sub_w, ins_w, del_w)
        else Ok (0%Q, 0%Q, 0%Q, 0%Q)) ;;
  cer <- true_div (st_cer s) (st_num_chars s) ;;
  sub_c <- true_div (st_sub_c s) (st_num_chars s) ;;
  ins_c <- true_div (st_ins_c s) (st_num_chars s) ;;
  del_c <- true_div (st_del_c s) (st_num_chars s) ;;
  Ok (w, (cer, sub_c, ins_c, del_c)).

End EvalChar.

End Character.

(* ================================================================== *)
(** * Concrete models used by the examples *)
(* ================================================================== *)

Module Examples.

Import Rnnlm.

(** A vocabulary of five ids, 0 to 4; the sentinel is id 5. *)
Definition cfg5 : config :=
  {| cfg_embedding_dim := 2; cfg_rnn_type := "lstm"; cfg_bidirectional := false;
     cfg_num_units := 3; cfg_num_layers := 1; cfg_num_classes := 5;
     cfg_recurrent_weight_orthogonal := false;
     cfg_init_forget_gate_bias_with_one := true;
     cfg_tie_weights := false |}.

Definition lm5 : rnnlm :=
  {| model_type := "rnnlm"; embedding_dim := 2; rnn_type := "lstm";
     bidirectional := false; num_directions := 1; num_units := 3;
     num_layers := 1; tie_weights := false; num_classes := 6;
     sos := 5; eos := 5; rnn_cell := LSTM; training := true |}.

(** The same configuration with weight tying requested; the hidden size
    (3) differs from the embedding dimension (2). *)
Definition cfg5_tied : config :=
  {| cfg_embedding_dim := 2; cfg_rnn_type := "lstm"; cfg_bidirectional := false;
     cfg_num_units := 3; cfg_num_layers := 1; cfg_num_classes := 5;
     cfg_recurrent_weight_orthogonal := false;
     cfg_init_forget_gate_bias_with_one := true;
     cfg_tie_weights := true |}.

(** Stub networks for decoding.  A token is its own embedding, the
    recurrent layer passes it through and keeps no state, and the output
    layer puts all the weight on one class, [next tok]. *)
Definition one_hot (k : Z) : list Z :=
  map (fun i => if (Z.of_nat i =? k)%Z then 1%Z else 0%Z) (seq 0 6).

Definition stub_decode (next : Z -> Z) :=
  decode Z Z.ltb Z Z unit (fun x => x) (fun x _ => (x, tt))
         (fun o => one_hot (next o)).

Definition stub_decode_return (next : Z -> Z) :=
  decode_return Z Z.ltb Z Z unit (fun x => x) (fun x _ => (x, tt))
                (fun o => one_hot (next o)).

Definition stub_greedy (next : Z -> Z) :=
  greedy Z Z.ltb Z Z unit (fun x => x) (fun x _ => (x, tt))
         (fun o => one_hot (next o)).

(** A model that always chooses the sentinel. *)
Definition always_eos (tok : Z) : Z := 5%Z.

(** A model that answers 0 with the sentinel, the sentinel with 1, and
    then walks 1, 2, 3, sentinel. *)
Definition chain (tok : Z) : Z :=
  match tok with
  | 0 => 5
  | 5 => 1
  | 1 => 2
  | 2 => 3
  | _ => 5
  end%Z.

(** Stub backends for the updater.  The model has one integer
    parameter; the loss is the parameter itself, [backward] adds one to
    the gradient, and an update subtracts the gradient from the
    parameter. *)
Definition stub_batch : Updater.batch Z Z :=
  {| Updater.xs := [[1; 2; 3]%Z]; Updater.ys := [7%Z] |}.

Definition stub_model : Updater.model Z Z :=
  {| Updater.params := 10%Z; Updater.grads := 0%Z; Updater.device_id := (-1)%Z |}.

Definition stub_call (optimizer_step : Z -> Z -> Z * outcome unit) :=
  Updater.call Z Z Z Z Z
    (fun p _ _ => Ok p)
    (fun _ g => ((g + 1)%Z, Ok tt))
    (fun _ => 0%Z)
    (fun _ g => g)
    optimizer_step
    (fun l => Updater.Finite (inject_Z l)).

(** An update that succeeds. *)
Definition plain_update (p g : Z) : Z * outcome unit := ((p - g)%Z, Ok tt).

(** An update that writes the parameter and then runs out of memory. *)
Definition failing_update (p g : Z) : Z * outcome unit := ((p - g)%Z, Raise RuntimeError).

Definition chainer_updater : Updater.updater :=
  {| Updater.clip_grad_norm := 5%Q; Updater.backend := "chainer" |}.

Definition pytorch_updater : Updater.updater :=
  {| Updater.clip_grad_norm := 5%Q; Updater.backend := "pytorch" |}.

(** A stub evaluation set-up: features and hypotheses are integers, the
    model decodes every input to the hypothesis 0 and keeps the batch
    order, every hypothesis reads "a b", and the scorer reports one error
    of each kind. *)
Definition stub_model_decode (_ : unit) (inputs : list Z) : list Z * list nat :=
  (map (fun _ => 0%Z) inputs, seq 0 (length inputs)).

Definition stub_idx2char (_ : Z) : string := "a b".

Definition stub_compute_wer (_ _ : list string) : Q * Q * Q * Q :=
  (3%Q, 1%Q, 1%Q, 1%Q).

Definition stub_eval_char :=
  Character.eval_char Z Z unit stub_model_decode stub_idx2char stub_compute_wer.

Definition one_utterance : Character.batch Z :=
  {| Character.xs := [0%Z]; Character.ys := ["a c"];
     Character.utt_ids := ["spk1-0001-0002"] |}.

(** A dataset with word labels. *)
Definition word_dataset : Character.dataset Z :=
  {| Character.label_type := "word"; Character.label_type_sub := "character";
     Character.first_batches := []; Character.last_batch := one_utterance |}.

(** The same utterance under an id without a dash or underscore. *)
Definition bare_id_dataset : Character.dataset Z :=
  {| Character.label_type := "word"; Character.label_type_sub := "character";
     Character.first_batches := [];
     Character.last_batch :=
       {| Character.xs := [0%Z]; Character.ys := ["a c"];
          Character.utt_ids := ["utt1"] |} |}.

End Examples.

(* ================================================================== *)
(** * Properties of [RNNLM.__init__] *)
(* ================================================================== *)

Module RnnlmInit.

Import Rnnlm Examples.

Lemma init_cfg5 : init cfg5 = Ok lm5.
Proof. reflexivity. Qed.

(** Construction gives the model one sentinel id, [V], for both the
    start and the end of a sequence, and [V + 1] classes. *)
Lemma init_sentinel (c : config) (m : rnnlm) :
  init c = Ok m ->
  sos m = cfg_num_classes c /\ eos m = cfg_num_classes c
  /\ num_classes m = (cfg_num_classes c + 1)%Z.
Proof.
  unfold init. destruct (select_cell (cfg_rnn_type c)); simpl; [|discriminate].
  destruct (tie_output_to_embedding c); simpl; [|discriminate].
  intros H. injection H as <-. simpl. auto.
Qed.

Lemma tie_raises (c : config) :
  cfg_tie_weights c = true ->
  tie_output_to_embedding c = Raise NotImplementedError.
Proof. intros H. unfold tie_output_to_embedding. rewrite H. reflexivity. Qed.

(** C7, as stated, fails: with weight tying selected and a hidden size
    that differs from the embedding dimension, construction raises
    [NotImplementedError]; no [ValueError], so no validation message about
    the dimensions, is produced. *)
Lemma tied_mismatch_is_not_a_validation_error :
  cfg_tie_weights cfg5_tied = true
  /\ cfg_num_units cfg5_tied <> cfg_embedding_dim cfg5_tied
  /\ init cfg5_tied = Raise NotImplementedError
  /\ ~ (exists msg, init cfg5_tied = Raise (ValueError msg)).
Proof.
  repeat split.
  - discriminate.
  - intros [msg H]. discriminate H.
Qed.

(** C7, amended: with weight tying selected, construction never succeeds
    and never reports a dimension mismatch.  For a recognised [rnn_type]
    it raises [NotImplementedError], whatever the dimensions are; for an
    unrecognised one the [rnn_type] check, which comes first, raises its
    own [ValueError]. *)
Theorem tie_weights_always_fails (c : config) :
  cfg_tie_weights c = true ->
  (forall k, select_cell (cfg_rnn_type c) = Ok k ->
             init c = Raise NotImplementedError)
  /\ (forall e, select_cell (cfg_rnn_type c) = Raise e ->
                e = ValueError rnn_type_message /\ init c = Raise e)
  /\ init c <> Raise (ValueError tied_message)
  /\ (forall m, init c <> Ok m).
Proof.
  intros Htie. unfold init. rewrite (tie_raises c Htie).
  unfold select_cell.
  destruct (String.eqb (cfg_rnn_type c) "lstm");
    [|destruct (String.eqb (cfg_rnn_type c) "gru");
      [|destruct (String.eqb (cfg_rnn_type c) "rnn")]];
    simpl; repeat split; intros; try discriminate; try congruence.
Qed.

Lemma tie_weights_always_fails_witness :
  init cfg5_tied = Raise NotImplementedError.
Proof.
  apply (tie_weights_always_fails cfg5_tied eq_refl) with (k := LSTM).
  reflexivity.
Defined.

End RnnlmInit.

(* ================================================================== *)
(** * Properties of the batch preparation *)
(* ================================================================== *)

Module BatchPreparation.

Import Rnnlm Examples.
Local Open Scope nat_scope.

(** ** The stable descending sort *)

Lemma forall_perm {A : Type} (P : A -> Prop) (l l' : list A) :
  Permutation l l' -> Forall P l -> Forall P l'.
Proof. intros Hp Hl. exact (Permutation_Forall Hp Hl). Qed.

Section Sorting.

Variable key : nat -> nat.

(** [before i j]: index [i] has to come before index [j], because its
    key is larger or, the keys being equal, because it came first. *)
Definition before (i j : nat) : Prop :=
  key j < key i \/ (key j = key i /\ i < j).

Lemma insert_desc_perm (x : nat) (l : list nat) :
  Permutation (insert_desc key x l) (x :: l).
Proof.
  induction l as [|y l IH]; simpl.
  - apply Permutation_refl.
  - destruct (key x <? key y).
    + apply perm_trans with (y :: x :: l).
      * apply perm_skip, IH.
      * apply perm_swap.
    + apply Permutation_refl.
Qed.

Lemma sorted_desc_perm (xs : list nat) :
  Permutation (sorted_desc key xs) xs.
Proof.
  induction xs as [|x xs IH]; simpl.
  - constructor.
  - apply perm_trans with (x :: sorted_desc key xs).
    + apply insert_desc_perm.
    + apply perm_skip, IH.
Qed.

Lemma insert_desc_sorted (x : nat) (l : list nat) :
  StronglySorted before l ->
  Forall (fun y => x < y) l ->
  StronglySorted before (insert_desc key x l).
Proof.
  induction l as [|y l IH]; simpl; intros Hs Hlt.
  - constructor; constructor.
  - inversion Hs as [|? ? Hs' Hy]; subst.
    inversion Hlt as [|? ? Hxy Hlt']; subst.
    destruct (key x <? key y) eqn:E.
    + apply Nat.ltb_lt in E. constructor.
      * apply IH; assumption.
      * apply forall_perm with (l := x :: l).
        -- apply Permutation_sym, insert_desc_perm.
        -- constructor; [left; exact E | exact Hy].
    + apply Nat.ltb_ge in E. constructor; [exact Hs|].
      constructor.
      * unfold before. lia.
      * rewrite Forall_forall in *. intros z Hz.
        specialize (Hy z Hz). specialize (Hlt' z Hz).
        unfold before in *. lia.
Qed.

Lemma sorted_desc_seq (a n : nat) :
  StronglySorted before (sorted_desc key (seq a n)).
Proof.
  revert a. induction n as [|n IH]; intros a; simpl.
  - constructor.
  - apply insert_desc_sorted.
    + apply IH.
    + apply forall_perm with (l := seq (S a) n).
      * apply Permutation_sym, sorted_desc_perm.
      * apply Forall_forall. intros y Hy. apply in_seq in Hy. lia.
Qed.

End Sorting.

Lemma strongly_sorted_nth {A : Type} (R : A -> A -> Prop) (d : A) (l : list A) :
  StronglySorted R l ->
  forall i j, i < j < length l -> R (nth i l d) (nth j l d).
Proof.
  induction 1 as [|x l Hs IH Hx]; intros i j Hij; simpl in Hij.
  - lia.
  - destruct j as [|j]; [lia|]. destruct i as [|i]; simpl.
    + rewrite Forall_forall in Hx. apply Hx, nth_In. lia.
    + apply IH. lia.
Qed.

(** ** Padding *)

Lemma max_time_perm (xs ys : list (list Z)) :
  Permutation xs ys -> max_time xs = max_time ys.
Proof.
  unfold max_time. induction 1; simpl; lia.
Qed.

Lemma max_time_grow (f : list Z -> list Z) (xs : list (list Z)) :
  xs <> [] ->
  (forall x, length (f x) = S (length x)) ->
  max_time (map f xs) = S (max_time xs).
Proof.
  intros Hne Hf. unfold max_time.
  induction xs as [|x xs IH]; [congruence|].
  simpl. rewrite Hf. destruct xs as [|x' xs].
  - simpl. lia.
  - rewrite IH by discriminate. lia.
Qed.

Lemma pad_list_nth (xs : list (list Z)) (pad : Z) (b : nat) :
  b < length xs ->
  nth b (pad_list xs pad) []
  = nth b xs [] ++ repeat pad (max_time xs - length (nth b xs [])).
Proof.
  intros Hb. unfold pad_list.
  rewrite nth_indep with (d' := (fun x => x ++ repeat pad (max_time xs - length x)) [])
    by (rewrite length_map; exact Hb).
  apply (map_nth (fun x => x ++ repeat pad (max_time xs - length x))).
Qed.

Lemma items_of_range (ys : list (list Z)) :
  map (item ys) (seq 0 (length ys)) = ys.
Proof.
  apply nth_ext with (d := item ys 0) (d' := []).
  - rewrite length_map, length_seq. reflexivity.
  - intros n Hn. rewrite length_map, length_seq in Hn.
    rewrite (map_nth (item ys)), seq_nth by exact Hn. reflexivity.
Qed.

Lemma perm_idx_perm (ys : list (list Z)) :
  Permutation (perm_idx ys) (seq 0 (length ys)).
Proof. apply sorted_desc_perm. Qed.

Lemma perm_idx_length (ys : list (list Z)) :
  length (perm_idx ys) = length ys.
Proof.
  rewrite (Permutation_length (perm_idx_perm ys)). apply length_seq.
Qed.

Lemma sorted_batch_perm (ys : list (list Z)) :
  Permutation (map (item ys) (perm_idx ys)) ys.
Proof.
  apply perm_trans with (map (item ys) (seq 0 (length ys))).
  - apply Permutation_map, perm_idx_perm.
  - rewrite items_of_range. apply Permutation_refl.
Qed.

Lemma sorted_batch_nth (ys : list (list Z)) (b : nat) :
  b < length ys ->
  nth b (map (item ys) (perm_idx ys)) [] = item ys (nth b (perm_idx ys) 0).
Proof.
  intros Hb.
  rewrite nth_indep with (d' := item ys 0)
    by (rewrite length_map, perm_idx_length; exact Hb).
  apply (map_nth (item ys)).
Qed.

(** ** The prepared batch *)

Lemma index_head {A : Type} (xs : list A) :
  xs <> [] -> exists x, index xs 0 = Ok x.
Proof.
  destruct xs as [|x xs]; [congruence|]. intros _. exists x. reflexivity.
Qed.

(** C3.  [perm_idx] reorders the examples by descending original length,
    examples of equal length keeping their input order.  For every
    example [b] of the reordered batch, with [s] its token sequence, the
    preparation yields the row [[SOS] + s] padded with the EOS id in
    [ys_in], the row [s + [EOS]] padded with the ignore marker [-1] in
    [ys_out], and the true length [|s| + 1].  With five vocabulary ids
    and the single input sequence [[2,3]] this is [ys_in = [5,2,3]],
    [ys_out = [2,3,5]] and length [3]. *)
Theorem prepare_sorted_and_padded (m : rnnlm) (ys : list (list Z)) :
  let perm := perm_idx ys in
  let sorted b := item ys (nth b perm 0) in
  Permutation perm (seq 0 (length ys))
  /\ (forall i j, i < j < length ys ->
                  length (sorted j) <= length (sorted i))
  /\ (forall i j, i < j < length ys ->
                  length (sorted i) = length (sorted j) ->
                  nth i perm 0 < nth j perm 0)
  /\ (forall b, b < length ys ->
        exists p,
          prepare m ys = Ok p
          /\ p_perm_idx p = perm
          /\ nth b (p_ys_in p) []
             = ([sos m] ++ sorted b)
                 ++ repeat (eos m) (max_time ys - length (sorted b))
          /\ nth b (p_ys_out p) []
             = (sorted b ++ [eos m])
                 ++ repeat (-1)%Z (max_time ys - length (sorted b))
          /\ nth b (p_y_lens p) 0 = length (sorted b) + 1)
  /\ init cfg5 = Ok lm5
  /\ prepare lm5 [[2; 3]%Z]
     = Ok {| p_perm_idx := [0]; p_y_lens := [3];
             p_ys_in := [[5; 2; 3]%Z]; p_ys_out := [[2; 3; 5]%Z] |}.
Proof.
  intros perm sorted.
  assert (Hsorted : forall i j, i < j < length ys ->
            before (fun i => length (item ys i)) (nth i perm 0) (nth j perm 0)).
  { intros i j Hij. apply strongly_sorted_nth.
    - apply sorted_desc_seq.
    - unfold perm. rewrite perm_idx_length. exact Hij. }
  split; [apply perm_idx_perm|].
  split; [intros i j Hij; destruct (Hsorted i j Hij); unfold sorted; lia|].
  split; [intros i j Hij Heq; destruct (Hsorted i j Hij); unfold sorted in *; lia|].
  split; [|split; reflexivity].
  intros b Hb. unfold prepare. fold perm.
  set (ys' := map (item ys) perm).
  assert (Hlen : length ys' = length ys)
    by (unfold ys', perm; rewrite length_map; apply perm_idx_length).
  assert (Hne : ys' <> []) by (intros E; rewrite E in Hlen; simpl in Hlen; lia).
  assert (Hnth : nth b ys' [] = sorted b) by (apply sorted_batch_nth; exact Hb).
  assert (Hmax : max_time ys' = max_time ys)
    by (apply max_time_perm, sorted_batch_perm).
  destruct (index_head ys' Hne) as [y0 Hy0]. rewrite Hy0. cbn [Py.bind].
  eexists. split; [reflexivity|]. cbn [p_perm_idx p_ys_in p_ys_out p_y_lens].
  split; [reflexivity|].
  split; [|split].
  - rewrite pad_list_nth by (rewrite length_map; lia).
    rewrite max_time_grow by (auto; intros; simpl; reflexivity).
    rewrite nth_indep with (d' := (fun y => [sos m] ++ y) [])
      by (rewrite length_map; lia).
    rewrite (map_nth (fun y => [sos m] ++ y)), Hnth, Hmax.
    simpl. reflexivity.
  - rewrite pad_list_nth by (rewrite length_map; lia).
    rewrite max_time_grow
      by (auto; intros; rewrite length_app; simpl; lia).
    rewrite nth_indep with (d' := (fun y => y ++ [eos m]) [])
      by (rewrite length_map; lia).
    rewrite (map_nth (fun y => y ++ [eos m])), Hnth, Hmax.
    rewrite length_app. cbn [length].
    replace (S (max_time ys) - (length (sorted b) + 1))
      with (max_time ys - length (sorted b)) by lia.
    reflexivity.
  - rewrite nth_indep with (d' := (fun y : list Z => length y + 1) [])
      by (rewrite length_map; lia).
    rewrite (map_nth (fun y : list Z => length y + 1)), Hnth. reflexivity.
Qed.

Lemma prepare_sorted_and_padded_witness :
  exists p,
    prepare lm5 [[1]; [2; 3]; [4]]%Z = Ok p
    /\ nth 2 (p_ys_in p) [] = [5; 4; 5]%Z
    /\ nth 2 (p_ys_out p) [] = [4; 5; -1]%Z
    /\ nth 2 (p_y_lens p) 0 = 2.
Proof.
  destruct (prepare_sorted_and_padded lm5 [[1]; [2; 3]; [4]]%Z)
    as (_ & _ & _ & H & _).
  destruct (H 2 ltac:(simpl; lia)) as (p & Hp & _ & Hin & Hout & Hlen).
  exists p. repeat split; assumption.
Defined.

End BatchPreparation.

(* ================================================================== *)
(** * Properties of the training loss *)
(* ================================================================== *)

Module Loss.

Import Rnnlm Examples BatchPreparation.
Local Open Scope nat_scope.

(** ** Tensors as tables *)

Lemma combine_app_same {A B : Type} (a a' : list A) (b b' : list B) :
  length a = length b ->
  combine (a ++ a') (b ++ b') = combine a b ++ combine a' b'.
Proof.
  revert b. induction a as [|x a IH]; intros [|y b] H; simpl in *;
    try discriminate; [reflexivity|].
  f_equal. apply IH. lia.
Qed.

(** Flattening two tables of the same shape row by row pairs up the
    entries position by position, rows first. *)
Lemma combine_concat_tables {A B : Type} (f : nat -> nat -> A) (g : nat -> nat -> B)
      (bs ts : list nat) :
  combine (concat (map (fun b => map (f b) ts) bs))
          (concat (map (fun b => map (g b) ts) bs))
  = map (fun bt => (f (fst bt) (snd bt), g (fst bt) (snd bt))) (list_prod bs ts).
Proof.
  induction bs as [|b bs IH]; simpl; [reflexivity|].
  rewrite combine_app_same by (rewrite !length_map; reflexivity).
  rewrite map_app, IH. f_equal.
  rewrite map_map. simpl.
  clear IH. induction ts as [|t ts IHt]; simpl; [reflexivity|].
  f_equal. exact IHt.
Qed.

Lemma fold_left_map {A B C : Type} (f : C -> B -> C) (g : A -> B) (l : list A) (c : C) :
  fold_left f (map g l) c = fold_left (fun acc x => f acc (g x)) l c.
Proof.
  revert c. induction l as [|x l IH]; intros c; simpl; [reflexivity|]. apply IH.
Qed.

(** A rectangular table is the table of its entries. *)
Lemma table_of_entries {A : Type} (d : A) (t : list (list A)) (L : nat) :
  Forall (fun r => length r = L) t ->
  t = map (fun b => map (fun i => nth i (nth b t []) d) (seq 0 L))
          (seq 0 (length t)).
Proof.
  intros Hrect.
  apply nth_ext with (d := []) (d' := map (fun i => nth i (nth 0 t []) d) (seq 0 L)).
  - rewrite length_map, length_seq. reflexivity.
  - intros b Hb.
    rewrite (map_nth (fun b => map (fun i => nth i (nth b t []) d) (seq 0 L))).
    rewrite seq_nth by exact Hb. simpl.
    assert (Hrow : length (nth b t []) = L).
    { rewrite Forall_forall in Hrect. apply Hrect, nth_In, Hb. }
    apply nth_ext with (d := d) (d' := nth 0 (nth b t []) d).
    + rewrite length_map, length_seq. exact Hrow.
    + intros i Hi.
      rewrite (map_nth (fun i => nth i (nth b t []) d)).
      rewrite seq_nth by lia. reflexivity.
Qed.

(** ** Shapes of the prepared batch *)

Lemma max_grow (g : list Z -> nat) (xs : list (list Z)) :
  xs <> [] ->
  (forall x, g x = S (length x)) ->
  fold_right Nat.max 0 (map g xs) = S (max_time xs).
Proof.
  intros Hne Hg. unfold max_time.
  induction xs as [|x xs IH]; [congruence|].
  simpl. rewrite Hg. destruct xs as [|x' xs].
  - simpl. lia.
  - rewrite IH by discriminate. lia.
Qed.

Lemma length_le_max_time (xs : list (list Z)) (x : list Z) :
  In x xs -> length x <= max_time xs.
Proof.
  unfold max_time. induction xs as [|y xs IH]; simpl; [tauto|].
  intros [-> | H]; [lia|]. specialize (IH H). lia.
Qed.

Lemma pad_list_rectangular (xs : list (list Z)) (pad : Z) :
  Forall (fun r => length r = max_time xs) (pad_list xs pad).
Proof.
  unfold pad_list. apply Forall_forall. intros r Hr.
  apply in_map_iff in Hr. destruct Hr as (x & <- & Hx).
  rewrite length_app, repeat_length.
  pose proof (length_le_max_time xs x Hx). lia.
Qed.

Lemma pad_list_length (xs : list (list Z)) (pad : Z) :
  length (pad_list xs pad) = length xs.
Proof. apply length_map. Qed.

(** On a non-empty batch the preparation succeeds, and both padded
    tensors have one row per example and [max |seq| + 1] columns. *)
Lemma prepare_shape (m : rnnlm) (ys : list (list Z)) :
  ys <> [] ->
  exists p,
    prepare m ys = Ok p
    /\ length (p_ys_in p) = length ys
    /\ length (p_ys_out p) = length ys
    /\ Forall (fun r => length r = S (max_time ys)) (p_ys_out p)
    /\ fold_right Nat.max 0 (p_y_lens p) = S (max_time ys).
Proof.
  intros Hne. unfold prepare.
  set (ys' := map (item ys) (perm_idx ys)).
  assert (Hlen : length ys' = length ys)
    by (unfold ys'; rewrite length_map; apply perm_idx_length).
  assert (Hne' : ys' <> []).
  { intros E. rewrite E in Hlen. destruct ys; [congruence|discriminate]. }
  assert (Hmax : max_time ys' = max_time ys)
    by (apply max_time_perm, sorted_batch_perm).
  destruct (index_head ys' Hne') as [y0 Hy0]. rewrite Hy0. cbn [Py.bind].
  eexists. split; [reflexivity|].
  cbn [p_perm_idx p_ys_in p_ys_out p_y_lens].
  rewrite !pad_list_length, !length_map.
  repeat split; try exact Hlen.
  - rewrite <- Hmax.
    rewrite <- (max_time_grow (fun y => y ++ [eos m]) ys' Hne')
      by (intros; rewrite length_app; simpl; lia).
    apply pad_list_rectangular.
  - rewrite <- Hmax. apply max_grow; [exact Hne'|]. intros; lia.
Qed.

(** ** The loss *)

Section ForwardLoss.

Variable Score Real : Type.
Variable rzero : Real.
Variable radd : Real -> Real -> Real.
Variable rdiv : Real -> Z -> Real.
Variable nll : list Score -> Z -> Real.
Variable logits_at : bool -> list (list Z) -> list nat -> nat -> nat -> list Score.

(** C8.  On every batch the loss is the cross-entropy summed over the
    (batch x time) positions whose target is not the ignore marker,
    divided by [batch_size * max_time], the padded extent: the number
    of examples times the longest sequence length plus one.  The
    divisor is not the number of real tokens: for the sequences
    [[1,2,3]] and [[4]] the loss is divided by 8, and 6 targets are
    real. *)
Theorem forward_normalises_by_padded_extent
        (m : rnnlm) (ys : list (list Z)) (is_eval : bool) :
  ys <> [] ->
  let m' := set_training m (negb is_eval) in
  let batch_size := length ys in
  let max_t := S (max_time ys) in
  (exists p,
     prepare m' ys = Ok p
     /\ forward Score Real rzero radd rdiv nll logits_at m ys is_eval
        = (m',
           Ok (rdiv (masked_sum Score Real rzero radd nll
                       (logits_at (negb is_eval) (p_ys_in p) (p_y_lens p))
                       (fun b t => nth t (nth b (p_ys_out p) []) 0%Z)
                       batch_size max_t)
                    (Z.of_nat batch_size * Z.of_nat max_t))))
  /\ (exists p,
        prepare lm5 [[1; 2; 3]; [4]]%Z = Ok p
        /\ real_tokens p = 6
        /\ length (p_ys_out p) * S (max_time [[1; 2; 3]; [4]]%Z) = 8).
Proof.
  intros Hne m' batch_size max_t. split.
  - destruct (prepare_shape m' ys Hne) as (p & Hp & Hin & Hout & Hrect & Hlens).
    exists p. split; [exact Hp|].
    unfold forward. fold m'. rewrite Hp. cbn [Py.bind].
    f_equal. f_equal.
    assert (Hsize1 : size1 (p_ys_out p) = max_t).
    { unfold size1. destruct (p_ys_out p) as [|r rs] eqn:E.
      - simpl in Hout. destruct ys; [congruence|discriminate].
      - inversion Hrect; subst. simpl. assumption. }
    unfold size0. rewrite Hsize1, Hout. fold batch_size. f_equal.
    unfold cross_entropy, masked_sum, logits_of.
    rewrite Hlens, Hin. fold batch_size max_t.
    rewrite (table_of_entries 0%Z (p_ys_out p) max_t Hrect) at 1.
    rewrite Hout. fold batch_size.
    replace (training m') with (negb is_eval) by reflexivity.
    rewrite (combine_concat_tables
               (logits_at (negb is_eval) (p_ys_in p) (p_y_lens p))
               (fun b i => nth i (nth b (p_ys_out p) []) 0%Z)).
    rewrite fold_left_map. reflexivity.
  - eexists. split; [reflexivity|]. split; reflexivity.
Qed.

End ForwardLoss.

(** A concrete instance: integer scores, and the target's own
    score as its loss term. *)
Lemma forward_normalises_by_padded_extent_witness :
  snd (forward Z Z 0%Z Z.add Z.div (fun x k => nth (Z.to_nat k) x 0%Z)
               (fun _ _ _ b t => [1; 2; 3; 4; 5; 6]%Z)
               lm5 [[1; 2; 3]; [4]]%Z false)
  = Ok (26 / 8)%Z.
Proof.
  destruct (forward_normalises_by_padded_extent Z Z 0%Z Z.add Z.div
              (fun x k => nth (Z.to_nat k) x 0%Z)
              (fun _ _ _ b t => [1; 2; 3; 4; 5; 6]%Z)
              lm5 [[1; 2; 3]; [4]]%Z false ltac:(discriminate))
    as [(p & Hp & Hf) _].
  rewrite Hf. cbn [snd]. injection Hp as <-. reflexivity.
Defined.

End Loss.

(* ================================================================== *)
(** * Properties of greedy decoding *)
(* ================================================================== *)

Module Decoding.

Import Rnnlm Examples.
Local Open Scope nat_scope.

(** ** In-place updates *)

Lemma set_nth_length {A : Type} (b : nat) (v : A) (xs : list A) :
  length (set_nth b v xs) = length xs.
Proof.
  revert b. induction xs as [|x xs IH]; intros [|b]; simpl; auto.
Qed.

Lemma set_nth_same {A : Type} (b : nat) (v d : A) (xs : list A) :
  b < length xs -> nth b (set_nth b v xs) d = v.
Proof.
  revert b. induction xs as [|x xs IH]; intros [|b] H; simpl in *;
    try lia; auto. apply IH. lia.
Qed.

Lemma set_nth_other {A : Type} (b b' : nat) (v d : A) (xs : list A) :
  b <> b' -> nth b' (set_nth b v xs) d = nth b' xs d.
Proof.
  revert b b'. induction xs as [|x xs IH]; intros [|b] [|b'] H; simpl;
    try congruence; auto.
Qed.

Lemma sum_flags_le (l : list bool) : sum_flags l <= length l.
Proof. induction l as [|[] l IH]; simpl; lia. Qed.

Lemma sum_flags_all (l : list bool) :
  sum_flags l = length l -> forall b, b < length l -> nth b l false = true.
Proof.
  induction l as [|f l IH]; simpl; intros H b Hb; [lia|].
  pose proof (sum_flags_le l).
  destruct f; [|lia].
  destruct b as [|b]; [reflexivity|]. apply IH; lia.
Qed.

Section Loop.

Variable Score : Type.
Variable score_ltb : Score -> Score -> bool.
Variable Emb Out Hidden : Type.
Variable embed : Z -> Emb.
Variable rnn : Emb -> option Hidden -> Out * Hidden.
Variable output : Out -> list Score.

Local Abbreviation greedy_next := (greedy_next Score score_ltb Emb Out Hidden embed rnn output).
Local Abbreviation greedy_from := (greedy_from Score score_ltb Emb Out Hidden embed rnn output).
Local Abbreviation greedy := (greedy Score score_ltb Emb Out Hidden embed rnn output).
Local Abbreviation step_batch := (step_batch Score score_ltb Emb Out Hidden embed rnn output).
Local Abbreviation decode_loop := (decode_loop Score score_ltb Emb Out Hidden embed rnn output).
Local Abbreviation decode := (decode Score score_ltb Emb Out Hidden embed rnn output).
Local Abbreviation decode_return := (decode_return Score score_ltb Emb Out Hidden embed rnn output).
Local Abbreviation loop_state := (loop_state Hidden).

(** ** One example on its own *)

Lemma greedy_from_length (tok : Z) (h : option Hidden) (n : nat) :
  length (greedy_from tok h n) = n.
Proof.
  revert tok h. induction n as [|n IH]; intros; simpl; [reflexivity|].
  rewrite IH. reflexivity.
Qed.

Lemma greedy_from_prefix (tok : Z) (h : option Hidden) (k n : nat) :
  k <= n -> firstn k (greedy_from tok h n) = greedy_from tok h k.
Proof.
  revert tok h k. induction n as [|n IH]; intros tok h [|k] Hk; simpl;
    try reflexivity; try lia.
  rewrite IH by lia. reflexivity.
Qed.

Lemma counted_le (eos_id : Z) (toks : list Z) :
  counted eos_id toks <= length toks.
Proof.
  induction toks as [|x toks IH]; simpl; [lia|].
  destruct (x =? eos_id)%Z; lia.
Qed.

Lemma counted_no_eos (eos_id : Z) (toks : list Z) :
  has_eos eos_id toks = false -> counted eos_id toks = length toks.
Proof.
  unfold has_eos. induction toks as [|x toks IH]; simpl; [reflexivity|].
  destruct (x =? eos_id)%Z; simpl; [discriminate|]. intros H. rewrite IH; auto.
Qed.

Lemma has_eos_firstn (eos_id : Z) (toks : list Z) (k : nat) :
  has_eos eos_id (firstn k toks) = true -> has_eos eos_id toks = true.
Proof.
  unfold has_eos. revert k. induction toks as [|x toks IH]; intros [|k]; simpl;
    try discriminate.
  destruct (x =? eos_id)%Z; simpl; [reflexivity|]. apply IH.
Qed.

(** ** One step of the batch *)

(** The state of one example: the token it is fed next and its hidden
    state. *)
Local Abbreviation ex_state := (Z * option Hidden)%type.

Definition ex_step (s : ex_state) : ex_state :=
  let r := greedy_next (fst s) (snd s) in (fst r, Some (snd r)).

(** The batch state [st] holds the examples [sts], row by row. *)
Definition agrees (st : loop_state) (sts : list ex_state) : Prop :=
  ls_y_in Hidden st = map fst sts
  /\ forall b, b < length sts ->
                hx_at Hidden (ls_h Hidden st) b = snd (nth b sts (0%Z, None)).

Lemma step_rows (hx : nat -> option Hidden) (sts : list ex_state) (a : nat) :
  (forall i, i < length sts -> hx (a + i) = snd (nth i sts (0%Z, None))) ->
  map (fun by_ : nat * Z =>
         let o := rnn (embed (snd by_)) (hx (fst by_)) in
         (argmax Score score_ltb (output (fst o)), snd o))
      (combine (seq a (length (map fst sts))) (map fst sts))
  = map (fun s => greedy_next (fst s) (snd s)) sts.
Proof.
  revert a. induction sts as [|s sts IH]; intros a Hhx; simpl; [reflexivity|].
  f_equal.
  - specialize (Hhx 0 ltac:(simpl; lia)). rewrite Nat.add_0_r in Hhx.
    simpl in Hhx. rewrite Hhx. reflexivity.
  - apply IH.
    intros i Hi. specialize (Hhx (S i) ltac:(simpl; lia)).
    simpl in Hhx. rewrite <- Hhx. f_equal. lia.
Qed.

Lemma step_batch_agrees (st : loop_state) (sts : list ex_state) :
  agrees st sts ->
  step_batch (ls_y_in Hidden st) (ls_h Hidden st)
  = (map fst (map ex_step sts),
     Some (map (fun s => snd (greedy_next (fst s) (snd s))) sts)).
Proof.
  intros [Hy Hh]. unfold step_batch. rewrite Hy. cbv zeta.
  pose proof (step_rows (hx_at Hidden (ls_h Hidden st)) sts 0 Hh) as Hrows.
  cbv zeta in Hrows. rewrite Hrows.
  rewrite !map_map. reflexivity.
Qed.

Lemma agrees_after_step (st st' : loop_state) (sts : list ex_state) :
  agrees st sts ->
  ls_y_in Hidden st' = fst (step_batch (ls_y_in Hidden st) (ls_h Hidden st)) ->
  ls_h Hidden st' = snd (step_batch (ls_y_in Hidden st) (ls_h Hidden st)) ->
  agrees st' (map ex_step sts).
Proof.
  intros Hag Hy Hh. rewrite (step_batch_agrees st sts Hag) in Hy, Hh.
  simpl in Hy, Hh. split; [exact Hy|].
  intros b Hb. rewrite length_map in Hb. rewrite Hh. simpl.
  rewrite nth_indep with (d' := ex_step (0%Z, None))
    by (rewrite length_map; exact Hb).
  rewrite (map_nth ex_step).
  rewrite nth_error_map.
  rewrite (nth_error_nth' sts (0%Z, None) Hb). reflexivity.
Qed.

(** ** The length counters *)

Lemma count_prefix (eos_id : Z) (y_in : list Z) (flags : list bool) (lens : list nat)
      (k : nat) :
  length flags = length lens ->
  k <= length flags ->
  let r := fold_left (count_one eos_id y_in) (seq 0 k) (flags, lens) in
  length (fst r) = length flags
  /\ length (snd r) = length lens
  /\ forall b,
       (b < k ->
        nth b (fst r) false = (nth b flags false || (nth b y_in 0 =? eos_id)%Z)
        /\ nth b (snd r) 0
           = if nth b flags false then nth b lens 0 else nth b lens 0 + 1)
       /\ (k <= b ->
           nth b (fst r) false = nth b flags false
           /\ nth b (snd r) 0 = nth b lens 0).
Proof.
  intros Hlen. induction k as [|k IH]; intros Hk.
  - simpl. repeat split; intros; lia.
  - specialize (IH ltac:(lia)). cbv zeta in IH |- *.
    rewrite seq_S, fold_left_app. simpl.
    destruct (fold_left (count_one eos_id y_in) (seq 0 k) (flags, lens))
      as [fl ln] eqn:E.
    simpl in IH. destruct IH as (Hfl & Hln & IH).
    destruct (proj2 (IH k) (le_n k)) as [Hfk Hlk].
    unfold count_one. simpl. rewrite Hfk.
    destruct (nth k flags false) eqn:Ek; simpl.
    + split; [exact Hfl|]. split; [exact Hln|].
      intros b. split; intros Hb.
      * destruct (Nat.eq_dec b k) as [->|Hne].
        -- rewrite Hfk, Hlk, Ek. split; reflexivity.
        -- apply (IH b). lia.
      * apply (IH b). lia.
    + split.
      { destruct (nth k y_in 0 =? eos_id)%Z;
          [rewrite set_nth_length|]; exact Hfl. }
      split; [rewrite set_nth_length; exact Hln|].
      intros b. split; intros Hb.
      * destruct (Nat.eq_dec b k) as [->|Hne].
        -- rewrite Ek. simpl. split.
           ++ destruct (nth k y_in 0 =? eos_id)%Z;
                [apply set_nth_same; lia | exact Hfk].
           ++ rewrite <- Hlk. apply set_nth_same. lia.
        -- destruct (IH b) as [IHb _]. specialize (IHb ltac:(lia)). split.
           ++ destruct (nth k y_in 0 =? eos_id)%Z;
                [rewrite set_nth_other by congruence|]; apply IHb.
           ++ rewrite set_nth_other by congruence. apply IHb.
      * destruct (IH b) as [_ IHb]. specialize (IHb ltac:(lia)). split.
        -- destruct (nth k y_in 0 =? eos_id)%Z;
             [rewrite set_nth_other by lia|]; apply IHb.
        -- rewrite set_nth_other by lia. apply IHb.
Qed.

Lemma count_lengths_spec (eos_id : Z) (y_in : list Z) (flags : list bool)
      (lens : list nat) :
  length flags = length lens ->
  let r := count_lengths eos_id (length flags) y_in flags lens in
  length (fst r) = length flags
  /\ length (snd r) = length lens
  /\ forall b, b < length flags ->
       nth b (fst r) false = (nth b flags false || (nth b y_in 0 =? eos_id)%Z)
       /\ nth b (snd r) 0
          = if nth b flags false then nth b lens 0 else nth b lens 0 + 1.
Proof.
  intros Hlen.
  destruct (count_prefix eos_id y_in flags lens (length flags) Hlen (le_n _))
    as (H1 & H2 & H3).
  unfold count_lengths. repeat split; try assumption; apply (H3 b); assumption.
Qed.

(** ** The loop *)

(** The tokens of example [s] over [n] steps. *)
Definition tokens (s : ex_state) (n : nat) : list Z :=
  greedy_from (fst s) (snd s) n.

(** The per-step columns for the examples [sts] over [T] steps. *)
Definition columns (sts : list ex_state) (T : nat) : list (list Z) :=
  map (fun j => map (fun s => nth j (tokens s T) 0%Z) sts) (seq 0 T).

Lemma tokens_0 (s : ex_state) : tokens s 0 = [].
Proof. reflexivity. Qed.

Lemma tokens_S (s : ex_state) (n : nat) :
  tokens s (S n) = fst (ex_step s) :: tokens (ex_step s) n.
Proof. reflexivity. Qed.

Lemma columns_S (sts : list ex_state) (T : nat) :
  columns sts (S T) = map fst (map ex_step sts) :: columns (map ex_step sts) T.
Proof.
  unfold columns. rewrite <- cons_seq. rewrite <- seq_shift. cbn [map].
  f_equal.
  - rewrite map_map. reflexivity.
  - rewrite map_map. apply map_ext. intros j.
    rewrite map_map. apply map_ext. intros s'. reflexivity.
Qed.

Lemma nth_ex_step (sts : list ex_state) (b : nat) :
  b < length sts ->
  nth b (map ex_step sts) (0%Z, None) = ex_step (nth b sts (0%Z, None)).
Proof.
  intros Hb.
  rewrite nth_indep with (d' := ex_step (0%Z, None))
    by (rewrite length_map; exact Hb).
  apply (map_nth ex_step).
Qed.

Lemma nth_first_tokens (sts : list ex_state) (b : nat) :
  b < length sts ->
  nth b (map fst (map ex_step sts)) 0%Z = fst (ex_step (nth b sts (0%Z, None))).
Proof.
  intros Hb. rewrite map_map.
  rewrite nth_indep with (d' := (fun s => fst (ex_step s)) (0%Z, None))
    by (rewrite length_map; exact Hb).
  apply (map_nth (fun s => fst (ex_step s))).
Qed.

Lemma decode_loop_spec (eos_id : Z) (steps : nat) :
  forall (st : loop_state) (sts : list ex_state),
    agrees st sts ->
    length (ls_eos_flag Hidden st) = length sts ->
    length (ls_y_lens Hidden st) = length sts ->
    exists T,
      T <= steps
      /\ (0 < steps -> 0 < T)
      /\ ls_best_hyps Hidden (decode_loop eos_id (length sts) steps st)
         = ls_best_hyps Hidden st ++ columns sts T
      /\ length (ls_y_lens Hidden (decode_loop eos_id (length sts) steps st))
         = length sts
      /\ (forall b, b < length sts ->
            nth b (ls_y_lens Hidden (decode_loop eos_id (length sts) steps st)) 0
            = nth b (ls_y_lens Hidden st) 0
              + if nth b (ls_eos_flag Hidden st) false then 0
                else counted eos_id (tokens (nth b sts (0%Z, None)) T))
      /\ (T < steps ->
          forall b, b < length sts ->
            nth b (ls_eos_flag Hidden st) false = true
            \/ has_eos eos_id (tokens (nth b sts (0%Z, None)) T) = true).
Proof.
  induction steps as [|steps IH]; intros st sts Hag Hfl Hln.
  - exists 0. simpl. rewrite app_nil_r.
    repeat split; try lia; try assumption.
    intros b Hb. destruct (nth b (ls_eos_flag Hidden st) false); lia.
  - cbn [Rnnlm.decode_loop].
    rewrite (step_batch_agrees st sts Hag). cbn [fst snd].
    set (y_in' := map fst (map ex_step sts)).
    destruct (count_lengths_spec eos_id y_in' (ls_eos_flag Hidden st)
                (ls_y_lens Hidden st) ltac:(congruence))
      as (Hfl' & Hln' & Hcount).
    rewrite Hfl in Hfl', Hln', Hcount. rewrite Hln in Hln'.
    set (fl := count_lengths eos_id (length sts) y_in' (ls_eos_flag Hidden st)
                             (ls_y_lens Hidden st)) in *.
    destruct (sum_flags (fst fl) =? length sts) eqn:Eall.
    + exists 1. cbn [ls_best_hyps ls_y_lens].
      split; [lia|]. split; [lia|].
      split; [rewrite columns_S; reflexivity|].
      split; [exact Hln'|].
      split.
      * intros b Hb. destruct (Hcount b Hb) as [_ Hl]. rewrite Hl.
        destruct (nth b (ls_eos_flag Hidden st) false); [lia|].
        rewrite tokens_S, tokens_0. cbn [counted].
        destruct (fst (ex_step (nth b sts (0%Z, None))) =? eos_id)%Z; lia.
      * intros _ b Hb. apply Nat.eqb_eq in Eall. rewrite <- Hfl' in Eall.
        pose proof (sum_flags_all (fst fl) Eall b ltac:(lia)) as Hb1.
        destruct (Hcount b Hb) as [Hf _]. rewrite Hf in Hb1.
        apply orb_true_iff in Hb1. destruct Hb1 as [Hb1|Hb1]; [left; exact Hb1|].
        right. rewrite tokens_S. unfold has_eos. cbn [existsb].
        unfold y_in' in Hb1. rewrite nth_first_tokens in Hb1 by exact Hb.
        rewrite Hb1. reflexivity.
    + set (st1 := {| ls_y_in := y_in';
                     ls_h := Some (map (fun s : ex_state =>
                                          snd (greedy_next (fst s) (snd s))) sts);
                     ls_best_hyps := ls_best_hyps Hidden st ++ [y_in'];
                     ls_eos_flag := fst fl; ls_y_lens := snd fl |}).
      assert (Hag1 : agrees st1 (map ex_step sts)).
      { apply (agrees_after_step st st1 sts Hag);
          rewrite (step_batch_agrees st sts Hag); reflexivity. }
      destruct (IH st1 (map ex_step sts) Hag1
                   ltac:(rewrite length_map; exact Hfl')
                   ltac:(rewrite length_map; exact Hln'))
        as (T & HT & HT0 & Hbest & Hlen1 & Hlens1 & Hdone).
      rewrite length_map in Hbest, Hlen1, Hlens1, Hdone.
      exists (S T).
      split; [lia|]. split; [lia|].
      split.
      { rewrite Hbest. cbn [ls_best_hyps st1]. rewrite columns_S.
        rewrite <- app_assoc. reflexivity. }
      split; [exact Hlen1|].
      split.
      * intros b Hb. rewrite (Hlens1 b Hb). cbn [ls_y_lens ls_eos_flag st1].
        destruct (Hcount b Hb) as [Hf Hl]. rewrite Hf, Hl.
        rewrite nth_ex_step by exact Hb. rewrite tokens_S.
        unfold y_in'. rewrite nth_first_tokens by exact Hb.
        destruct (nth b (ls_eos_flag Hidden st) false); cbn [orb counted]; [lia|].
        destruct (fst (ex_step (nth b sts (0%Z, None))) =? eos_id)%Z; lia.
      * intros HT' b Hb.
        destruct (Hdone ltac:(lia) b Hb) as [Hd|Hd].
        -- cbn [ls_eos_flag st1] in Hd.
           destruct (Hcount b Hb) as [Hf _]. rewrite Hf in Hd.
           apply orb_true_iff in Hd. destruct Hd as [Hd|Hd]; [left; exact Hd|].
           right. rewrite tokens_S. unfold has_eos. cbn [existsb].
           unfold y_in' in Hd. rewrite nth_first_tokens in Hd by exact Hb.
           rewrite Hd. reflexivity.
        -- right. rewrite nth_ex_step in Hd by exact Hb.
           rewrite tokens_S. unfold has_eos in *. cbn [existsb].
           rewrite Hd. apply orb_true_r.
Qed.

(** ** The whole of [decode] *)

Lemma map_over_range {A B : Type} (d : A) (G : A -> B) (l : list A) :
  map (fun b => G (nth b l d)) (seq 0 (length l)) = map G l.
Proof.
  destruct l as [|x l']; [reflexivity|].
  apply nth_ext with (d := G d) (d' := G d).
  - rewrite !length_map, length_seq. reflexivity.
  - intros n Hn. rewrite length_map, length_seq in Hn.
    rewrite (map_nth G).
    rewrite nth_indep with (d' := (fun b => G (nth b (x :: l') d)) 0)
      by (rewrite length_map, length_seq; exact Hn).
    rewrite (map_nth (fun b => G (nth b (x :: l') d))).
    rewrite seq_nth by exact Hn. reflexivity.
Qed.

Lemma pad_singletons (l : list Z) (pad d : Z) :
  map (hd d) (pad_list (map (fun y => [y]) l) pad) = l.
Proof.
  unfold pad_list. rewrite !map_map. simpl.
  rewrite <- (map_id l) at 2. apply map_ext. reflexivity.
Qed.

Lemma row_of_columns (sts : list ex_state) (T b : nat) :
  b < length sts ->
  map (fun col : list Z => nth b col 0%Z) (columns sts T)
  = tokens (nth b sts (0%Z, None)) T.
Proof.
  intros Hb. unfold columns. rewrite map_map.
  apply nth_ext with (d := 0%Z) (d' := 0%Z).
  - rewrite length_map, length_seq. unfold tokens.
    rewrite greedy_from_length. reflexivity.
  - intros j Hj. rewrite length_map, length_seq in Hj.
    rewrite nth_indep
      with (d' := (fun x => nth b (map (fun s => nth x (tokens s T) 0%Z) sts) 0%Z) 0)
      by (rewrite length_map, length_seq; exact Hj).
    rewrite (map_nth (fun x => nth b (map (fun s => nth x (tokens s T) 0%Z) sts) 0%Z)).
    rewrite seq_nth by exact Hj. simpl.
    rewrite nth_indep
      with (d' := (fun s => nth j (tokens s T) 0%Z) (0%Z, None))
      by (rewrite length_map; exact Hb).
    apply (map_nth (fun s => nth j (tokens s T) 0%Z)).
Qed.

(** [decode] in closed form.  With at least one step allowed, the loop
    runs some number [T] of steps, between 1 and [max_decode_len]; every
    example gets the first [1 + c] of its own [T] greedy tokens, where [c]
    counts its tokens up to and including the first EOS; and the loop
    stops before [max_decode_len] only when every example has emitted
    EOS. *)
Lemma decode_closed_form (m : rnnlm) (start_tokens : list Z) (max_decode_len : Z) :
  (1 <= max_decode_len)%Z ->
  exists T,
    1 <= T <= Z.to_nat max_decode_len
    /\ decode m start_tokens max_decode_len
       = (set_training m false,
          Ok (map (fun s => firstn (1 + counted (eos m) (greedy s T)) (greedy s T))
                  start_tokens))
    /\ (T < Z.to_nat max_decode_len ->
        forall s, In s start_tokens -> has_eos (eos m) (greedy s T) = true).
Proof.
  intros Hmax. unfold Rnnlm.decode.
  set (sts := map (fun s : Z => (s, @None Hidden)) start_tokens).
  set (B := length start_tokens).
  assert (HB : length sts = B) by (unfold sts; apply length_map).
  set (st0 := {| ls_y_in := map (hd (-1)%Z)
                                (pad_list (map (fun y => [y]) start_tokens) (-1));
                 ls_h := None; ls_best_hyps := [];
                 ls_eos_flag := repeat false B; ls_y_lens := repeat 1 B |}).
  assert (Hag : agrees st0 sts).
  { split.
    - cbn [ls_y_in st0]. rewrite pad_singletons. unfold sts.
      rewrite map_map. simpl. rewrite map_id. reflexivity.
    - intros b Hb. cbn [ls_h st0 hx_at]. unfold sts.
      rewrite (map_nth (fun s : Z => (s, @None Hidden))). reflexivity. }
  destruct (decode_loop_spec (eos (set_training m false)) (Z.to_nat max_decode_len)
              st0 sts Hag)
    as (T & HT & HT0 & Hbest & Hlen & Hlens & Hdone).
  { cbn [ls_eos_flag st0]. rewrite repeat_length. congruence. }
  { cbn [ls_y_lens st0]. rewrite repeat_length. congruence. }
  rewrite HB in Hbest, Hlen, Hlens, Hdone.
  assert (Hnth : forall b, nth b sts (0%Z, None) = (nth b start_tokens 0%Z, None)).
  { intros b. unfold sts.
    apply (map_nth (fun s : Z => (s, @None Hidden))). }
  exists T. split; [lia|]. split.
  - f_equal. rewrite Hbest. cbn [ls_best_hyps st0 app].
    destruct T as [|T']; [lia|].
    rewrite columns_S. cbn [cat_columns Py.bind]. rewrite <- columns_S.
    f_equal.
    rewrite <- (map_over_range 0%Z
                  (fun s => firstn (1 + counted (eos m) (greedy s (S T')))
                                   (greedy s (S T')))).
    fold B. apply map_ext_in. intros b Hb. apply in_seq in Hb.
    rewrite (Hlens b ltac:(lia)). cbn [ls_y_lens ls_eos_flag st0].
    rewrite (nth_repeat_lt 1 0) by lia. rewrite (nth_repeat_lt false false) by lia.
    rewrite nth_indep
      with (d' := (fun b => map (fun col : list Z => nth b col 0%Z)
                                (columns sts (S T'))) 0)
      by (rewrite length_map, length_seq; lia).
    rewrite (map_nth (fun b => map (fun col : list Z => nth b col 0%Z)
                                   (columns sts (S T')))).
    rewrite seq_nth by lia. cbn [Nat.add].
    rewrite row_of_columns by lia.
    rewrite Hnth. reflexivity.
  - intros HT' s Hs. apply In_nth with (d := 0%Z) in Hs.
    destruct Hs as (b & Hb & <-).
    destruct (Hdone HT' b Hb) as [Hd|Hd].
    + cbn [ls_eos_flag st0] in Hd.
      rewrite (nth_repeat_lt false false) in Hd by exact Hb. discriminate.
    + rewrite Hnth in Hd. exact Hd.
Qed.

(** Without a single step there is nothing to concatenate. *)
Lemma decode_without_steps (m : rnnlm) (start_tokens : list Z) (max_decode_len : Z) :
  (max_decode_len <= 0)%Z ->
  decode m start_tokens max_decode_len = (set_training m false, Raise RuntimeError).
Proof.
  intros H. unfold Rnnlm.decode.
  replace (Z.to_nat max_decode_len) with 0 by lia. reflexivity.
Qed.

(** ** Hypotheses *)

Lemma hypotheses_nth {A : Type} (G : Z -> list A) (l : list Z) (b : nat) :
  b < length l -> nth b (map G l) [] = G (nth b l 0%Z).
Proof.
  intros Hb.
  rewrite nth_indep with (d' := G 0%Z) by (rewrite length_map; exact Hb).
  apply (map_nth G).
Qed.

Lemma greedy_prefix (s : Z) (k n : nat) :
  k <= n -> firstn k (greedy s n) = greedy s k.
Proof. apply greedy_from_prefix. Qed.

Lemma greedy_length (s : Z) (n : nat) : length (greedy s n) = n.
Proof. apply greedy_from_length. Qed.

(** C5.  With [max_decode_len >= 1], [decode] returns, and no hypothesis
    is longer than [max_decode_len].  An example whose first
    [max_decode_len] greedy tokens contain no EOS gets exactly these
    tokens: its hypothesis has length [max_decode_len] and no EOS is put
    onto it. *)
Theorem decode_length_capped (m : rnnlm) (start_tokens : list Z) (max_decode_len : Z) :
  (1 <= max_decode_len)%Z ->
  exists hyps,
    snd (decode m start_tokens max_decode_len) = Ok hyps
    /\ length hyps = length start_tokens
    /\ forall b, b < length start_tokens ->
         length (nth b hyps []) <= Z.to_nat max_decode_len
         /\ (has_eos (eos m) (greedy (nth b start_tokens 0%Z)
                                     (Z.to_nat max_decode_len)) = false ->
             nth b hyps [] = greedy (nth b start_tokens 0%Z) (Z.to_nat max_decode_len)
             /\ length (nth b hyps []) = Z.to_nat max_decode_len
             /\ has_eos (eos m) (nth b hyps []) = false).
Proof.
  intros Hmax.
  destruct (decode_closed_form m start_tokens max_decode_len Hmax)
    as (T & HT & Hdec & Hdone).
  eexists. split; [rewrite Hdec; reflexivity|].
  split; [apply length_map|].
  intros b Hb.
  rewrite (hypotheses_nth
             (fun s => firstn (1 + counted (eos m) (greedy s T)) (greedy s T)))
    by exact Hb.
  set (s := nth b start_tokens 0%Z). split.
  - rewrite length_firstn, greedy_length. lia.
  - intros Hno.
    assert (HT' : T = Z.to_nat max_decode_len).
    { destruct (Nat.eq_dec T (Z.to_nat max_decode_len)) as [E|E]; [exact E|].
      specialize (Hdone ltac:(lia) s (nth_In _ _ Hb)).
      rewrite <- (greedy_prefix s T (Z.to_nat max_decode_len)) in Hdone by lia.
      apply has_eos_firstn in Hdone. congruence. }
    rewrite HT'. rewrite (counted_no_eos _ _ Hno), greedy_length.
    rewrite firstn_all2 by (rewrite greedy_length; lia).
    rewrite greedy_length. auto.
Qed.

End Loop.

(** ** Concrete runs *)

Lemma decode_length_capped_witness :
  exists hyps,
    snd (stub_decode chain lm5 [1%Z] 2%Z) = Ok hyps
    /\ nth 0 hyps [] = [2; 3]%Z.
Proof.
  destruct (decode_length_capped Z Z.ltb Z Z unit (fun x => x) (fun x _ => (x, tt))
              (fun o => one_hot (chain o)) lm5 [1%Z] 2%Z ltac:(lia))
    as (hyps & Hret & _ & Hb).
  exists hyps. split; [exact Hret|].
  destruct (Hb 0 ltac:(simpl; lia)) as [_ Hno].
  destruct (Hno eq_refl) as [Heq _]. exact Heq.
Defined.

(** C2 fails on this run.  The first example chooses EOS (id 5) at step 1,
    the second one at step 3, so three steps are executed.  The first
    example's recorded length is 2, because the counter starts at 1 for
    the start token, and its hypothesis is [[5, 1]]: two tokens, the last
    of which is not EOS. *)
Theorem hypothesis_keeps_a_token_after_eos :
  stub_greedy chain 0%Z 3 = [5; 1; 2]%Z
  /\ stub_greedy chain 1%Z 3 = [2; 3; 5]%Z
  /\ snd (stub_decode chain lm5 [0; 1]%Z 3%Z) = Ok [[5; 1]; [2; 3; 5]]%Z.
Proof. repeat split. Qed.

(** The scenario of the specification, a single example whose first
    choice is EOS, comes out as specified: the loop stops after one step,
    so there is no further token to keep. *)
Lemma single_example_stops_at_eos :
  snd (stub_decode always_eos lm5 [5%Z] 3%Z) = Ok [[5%Z]].
Proof. reflexivity. Qed.

(** C6 fails on the code.  The docstring announces two returned values,
    the hypotheses and a second list of length [B], and the loop records a
    length per example; line 315 returns [best_hyps] alone.  On the start
    token 5 with a model that always chooses EOS the returned object is
    the list [[[5]]], not a pair of hypotheses and lengths. *)
Theorem decode_does_not_return_a_pair :
  stub_decode_return always_eos lm5 [5%Z] 3%Z = Ok (VList [VList [VInt 5]])
  /\ ~ (exists hyps lens,
          stub_decode_return always_eos lm5 [5%Z] 3%Z = Ok (VTuple [hyps; lens])).
Proof.
  split; [reflexivity|].
  intros (hyps & lens & H). discriminate H.
Qed.

End Decoding.

(* ================================================================== *)
(** * Properties of [Updater.__call__] *)
(* ================================================================== *)

Module TrainingStep.

Import Updater Examples.

Section Backends.

Variable Frame Target Params Grads Loss : Type.
Variable model_call : Params -> batch Frame Target -> bool -> outcome Loss.
Variable backward : Loss -> Grads -> Grads * outcome unit.
Variable zero_grad : Grads -> Grads.
Variable clip : Q -> Grads -> Grads.
Variable optimizer_step : Params -> Grads -> Params * outcome unit.
Variable loss_data : Loss -> pyfloat.

Local Abbreviation model := (model Params Grads).
Local Abbreviation batch := (batch Frame Target).
Local Abbreviation try_body :=
  (try_body Frame Target Params Grads Loss model_call backward zero_grad clip
            optimizer_step loss_data).
Local Abbreviation call :=
  (call Frame Target Params Grads Loss model_call backward zero_grad clip
        optimizer_step loss_data).

(** Unfolds one training step down to the backend operations. *)
Ltac open_step :=
  unfold Updater.try_body, pytorch_step, chainer_step, seq_stmt, do_zero_grad,
    empty_cache_if_gpu, do_model_call, do_backward, do_clip, do_optimizer_step,
    ret, raise, with_grads, with_params in *.

(** Where a runtime error of the step leaves the parameters: untouched,
    unless it is the optimizer update itself that raised. *)
Lemma params_at_runtime_error (u : updater) (m m1 : model) (b : batch) (is_eval : bool) :
  try_body u b is_eval m = (m1, Raise RuntimeError) ->
  (String.eqb (backend u) "pytorch" = true \/ String.eqb (backend u) "chainer" = true)
  /\ (params _ _ m1 = params _ _ m
      \/ exists g, optimizer_step (params _ _ m) g = (params _ _ m1, Raise RuntimeError)).
Proof.
  intros H. open_step.
  destruct (String.eqb (backend u) "pytorch") eqn:Ept;
    [|destruct (String.eqb (backend u) "chainer") eqn:Ech; [|discriminate H]];
    (split; [auto|]);
    destruct is_eval; cbn in H;
    repeat match type of H with
      | context [model_call ?p ?b ?e] =>
          destruct (model_call p b e) eqn:?; cbn in H
      | context [backward ?l ?g] =>
          let g1 := fresh "g1" in let r := fresh "r" in
          destruct (backward l g) as [g1 [[]|r]] eqn:?; cbn in H
      | context [Qlt_le_dec ?a ?c] => destruct (Qlt_le_dec a c); cbn in H
      | context [optimizer_step ?p ?g] =>
          let p1 := fresh "p1" in let r := fresh "r" in
          destruct (optimizer_step p g) as [p1 [[]|r]] eqn:?; cbn in H
      | context [if ?c then _ else _] => destruct c; cbn in H
      end;
    try discriminate H;
    injection H as <- ->; cbn; eauto.
Qed.

Lemma max_frame_num_nonempty (b : batch) :
  xs _ _ b <> [] -> exists n, max_frame_num Frame Target b = Ok n.
Proof.
  unfold max_frame_num. destruct (xs _ _ b); [congruence|]. eauto.
Qed.

(** C4, amended: on a batch with at least one input sequence, a
    [RuntimeError] raised by the step is caught; the call returns the loss
    value 0, and the model it returns is the model as the failure left it,
    with its gradients cleared.  Its parameters are those from before the
    call when the model call or the backward pass raised; when the
    optimizer update itself raised, they are whatever the failed update
    left. *)
Theorem runtime_error_is_contained
        (u : updater) (m m1 : model) (b : batch) (is_eval : bool) :
  xs _ _ b <> [] ->
  try_body u b is_eval m = (m1, Raise RuntimeError) ->
  call u m b is_eval
  = (with_grads _ _ m1 (zero_grad (grads _ _ m1)), Ok (Finite 0))
  /\ (params _ _ m1 = params _ _ m
      \/ exists g, optimizer_step (params _ _ m) g = (params _ _ m1, Raise RuntimeError)).
Proof.
  intros Hxs Hbody.
  destruct (params_at_runtime_error u m m1 b is_eval Hbody) as [Hbackend Hparams].
  split; [|exact Hparams].
  destruct (max_frame_num_nonempty b Hxs) as [n Hn].
  unfold Updater.call, seq_stmt, try_except_runtime. rewrite Hbody.
  cbn [is_runtime_error]. unfold except_handler, seq_stmt. rewrite Hn.
  cbn [Py.bind].
  unfold do_zero_grad, empty_cache_if_gpu, ret.
  destruct Hbackend as [E|E]; rewrite E.
  - cbn. destruct (device_id _ _ m1 >=? 0)%Z; reflexivity.
  - destruct (String.eqb (backend u) "pytorch"); cbn;
      [destruct (device_id _ _ m1 >=? 0)%Z|]; reflexivity.
Qed.

(** The evaluation path of the pytorch backend: the parameters are never
    written, whatever the model call does. *)
Lemma pytorch_eval_keeps_params (u : updater) (m : model) (b : batch) :
  String.eqb (backend u) "pytorch" = true ->
  params _ _ (fst (call u m b true)) = params _ _ m.
Proof.
  intros E.
  unfold Updater.call, seq_stmt, try_except_runtime, Updater.try_body.
  rewrite E. unfold pytorch_step, seq_stmt, do_model_call, ret.
  destruct (model_call (params _ _ m) b true) as [l|e]; [reflexivity|].
  destruct (is_runtime_error e); [|reflexivity].
  unfold except_handler, seq_stmt.
  destruct (max_frame_num Frame Target b); [|reflexivity].
  cbn [Py.bind]. rewrite E. unfold do_zero_grad, empty_cache_if_gpu, ret. cbn.
  destruct (device_id _ _ m >=? 0)%Z; reflexivity.
Qed.

(** The chainer backend with [is_eval=True]: when nothing raises, the call
    clears the gradients, runs the model in training mode, accumulates
    gradients and applies an optimizer update. *)
Lemma chainer_eval_updates (u : updater) (m : model) (b : batch)
      (l : Loss) (g : Grads) (p : Params) :
  String.eqb (backend u) "pytorch" = false ->
  String.eqb (backend u) "chainer" = true ->
  model_call (params _ _ m) b false = Ok l ->
  backward l (zero_grad (grads _ _ m)) = (g, Ok tt) ->
  optimizer_step (params _ _ m) g = (p, Ok tt) ->
  call u m b true
  = ({| params := p; grads := g; device_id := device_id _ _ m |},
     Ok (sanitize (loss_data l))).
Proof.
  intros Ept Ech Hcall Hback Hstep.
  unfold Updater.call, seq_stmt, try_except_runtime, Updater.try_body.
  rewrite Ept, Ech. open_step. cbn.
  rewrite Hcall. cbn. rewrite Hback. cbn. rewrite Hstep. reflexivity.
Qed.

End Backends.

(** ** Concrete runs *)

(** C1 fails on the chainer backend: called with [is_eval=True] on a model
    whose parameter is 10, the step accumulates the gradient 1 and applies
    the update, so the parameter is 9 afterwards.  The same call on the
    pytorch backend leaves the parameter at 10. *)
Theorem chainer_eval_mutates_parameters :
  params _ _ stub_model = 10%Z
  /\ stub_call plain_update chainer_updater stub_model stub_batch true
     = ({| params := 9%Z; grads := 1%Z; device_id := (-1)%Z |},
        Ok (Finite (inject_Z 10)))
  /\ stub_call plain_update pytorch_updater stub_model stub_batch true
     = (stub_model, Ok (Finite (inject_Z 10))).
Proof. repeat split. Qed.

(** C4, as stated, fails when it is the update that raises: the optimizer
    has written the parameter (10 becomes 9) before it raises; the error
    is caught, the gradient is cleared and 0 is returned, but the
    parameter stays at 9. *)
Lemma failed_update_is_not_rolled_back :
  failing_update (params _ _ stub_model) 1%Z = (9%Z, Raise RuntimeError)
  /\ stub_call failing_update pytorch_updater stub_model stub_batch false
     = ({| params := 9%Z; grads := 0%Z; device_id := (-1)%Z |}, Ok (Finite 0))
  /\ params _ _ (fst (stub_call failing_update pytorch_updater stub_model
                                stub_batch false))
     <> params _ _ stub_model.
Proof. repeat split. discriminate. Qed.

Lemma runtime_error_is_contained_witness :
  stub_call failing_update pytorch_updater stub_model stub_batch false
  = ({| params := 9%Z; grads := 0%Z; device_id := (-1)%Z |}, Ok (Finite 0)).
Proof.
  exact (proj1 (runtime_error_is_contained Z Z Z Z Z
                  (fun p _ _ => Ok p) (fun _ g => ((g + 1)%Z, Ok tt))
                  (fun _ => 0%Z) (fun _ g => g) failing_update
                  (fun l => Finite (inject_Z l))
                  pytorch_updater stub_model
                  {| params := 9%Z; grads := 1%Z; device_id := (-1)%Z |}
                  stub_batch false ltac:(discriminate) eq_refl)).
Defined.

(** On an empty batch the handler's own log message fails: [max()] of no
    lengths raises [ValueError], which leaves the call. *)
Lemma empty_batch_escapes_the_handler :
  Updater.call Z Z Z Z Z
    (fun _ _ _ => Raise RuntimeError) (fun _ g => (g, Ok tt)) (fun _ => 0%Z)
    (fun _ g => g) plain_update (fun l => Finite (inject_Z l))
    pytorch_updater stub_model {| xs := []; ys := [] |} false
  = ({| params := 10%Z; grads := 0%Z; device_id := (-1)%Z |},
     Raise (ValueError "max() arg is an empty sequence")).
Proof. reflexivity. Qed.

End TrainingStep.

(* ================================================================== *)
(** * Properties of [eval_char] *)
(* ================================================================== *)

Module Evaluation.

Import Character Examples.
Local Open Scope nat_scope.

(** No statement of the module binds [task_index]. *)
Lemma task_index_unbound {A : Type} (v : A) :
  read_name "task_index" v = Raise (NameError "task_index").
Proof. reflexivity. Qed.

Lemma index_in_range {A : Type} (l : list A) (i : nat) :
  i < length l -> exists x, index l i = Ok x.
Proof.
  intros Hi. unfold index.
  destruct (nth_error l i) eqn:E; [eauto|].
  apply nth_error_None in E. lia.
Qed.

Lemma index_from_end_in_range {A : Type} (l : list A) (k : nat) :
  1 <= k <= length l -> exists x, index_from_end l k = Ok x.
Proof.
  intros Hk. unfold index_from_end.
  destruct (k <=? length l) eqn:E; [|apply Nat.leb_gt in E; lia].
  apply index_in_range. lia.
Qed.

Lemma map_outcome_index {A : Type} (l : list A) (idx : list nat) :
  forallb (fun i => i <? length l) idx = true ->
  exists r, map_outcome (index l) idx = Ok r /\ length r = length idx.
Proof.
  induction idx as [|i idx IH]; simpl; intros H.
  - exists []. auto.
  - apply andb_true_iff in H. destruct H as [Hi Hrest].
    apply Nat.ltb_lt in Hi.
    destruct (index_in_range l i Hi) as [x Hx].
    destruct (IH Hrest) as (r & Hr & Hlen).
    exists (x :: r). rewrite Hx, Hr. simpl. auto.
Qed.

Lemma trn_suffix_two_fields (utt : string) :
  2 <= length (split "_" (replace_char "-" "_" utt)) ->
  exists suffix, trn_suffix utt = Ok suffix.
Proof.
  intros H. unfold trn_suffix.
  destruct (index_from_end_in_range _ 2 ltac:(split; [lia|exact H])) as [a Ha].
  destruct (index_from_end_in_range (split "_" (replace_char "-" "_" utt)) 1
              ltac:(lia)) as [b Hb].
  rewrite Ha, Hb. simpl. eauto.
Qed.

Section EvalChar.

Variable Feature Hyp Model : Type.
Variable model_decode : Model -> list Feature -> list Hyp * list nat.
Variable idx2char : Hyp -> string.
Variable compute_wer : list string -> list string -> Q * Q * Q * Q.

Local Abbreviation batch := (batch Feature).
Local Abbreviation dataset := (dataset Feature).
Local Abbreviation eval_utt := (eval_utt Feature Hyp idx2char compute_wer).
Local Abbreviation eval_batch :=
  (eval_batch Feature Hyp Model model_decode idx2char compute_wer).
Local Abbreviation eval_batches :=
  (eval_batches Feature Hyp Model model_decode idx2char compute_wer).
Local Abbreviation eval_char :=
  (eval_char Feature Hyp Model model_decode idx2char compute_wer).

(** ** The word-level condition *)

Lemma word_level_raises (d : dataset) :
  character_labels _ d = false ->
  word_level _ d = Raise (NameError "task_index").
Proof.
  intros H. unfold word_level. rewrite H. rewrite task_index_unbound. reflexivity.
Qed.

Lemma word_level_returns (d : dataset) (flag : bool) :
  word_level _ d = Ok flag -> character_labels _ d = true /\ flag = true.
Proof.
  unfold word_level. destruct (character_labels _ d).
  - intros H. injection H as <-. auto.
  - rewrite task_index_unbound. discriminate.
Qed.

(** ** Batches that reach the condition *)

(** The bookkeeping of a batch is in order: the permutation indexes the
    references, and a non-empty batch has a reference, a hypothesis and an
    utterance id of the form speaker-start-end for its first utterance. *)
Definition ready (model : Model) (bt : batch) : bool :=
  forallb (fun i => i <? length (ys _ bt)) (snd (model_decode model (xs _ bt)))
  && match xs _ bt with
     | [] => true
     | _ :: _ =>
         match snd (model_decode model (xs _ bt)),
               fst (model_decode model (xs _ bt)), utt_ids _ bt with
         | _ :: _, _ :: _, utt :: _ =>
             2 <=? length (split "_" (replace_char "-" "_" utt))
         | _, _, _ => false
         end
     end.

Lemma eval_batch_ready (d : dataset) (model : Model) (s : stats) (bt : batch) :
  character_labels _ d = false ->
  ready model bt = true ->
  eval_batch d model s bt
  = match xs _ bt with
    | [] => Ok s
    | _ :: _ => Raise (NameError "task_index")
    end.
Proof.
  intros Hlabels Hready. unfold ready in Hready.
  apply andb_true_iff in Hready. destruct Hready as [Hperm Hfirst].
  unfold Character.eval_batch.
  destruct (model_decode model (xs _ bt)) as [best_hyps perm_idx] eqn:Edec.
  cbn [fst snd] in Hperm, Hfirst.
  destruct (map_outcome_index (ys _ bt) perm_idx Hperm) as (ys_perm & Hys & Hlen).
  rewrite Hys. cbn [Py.bind].
  destruct (xs _ bt) as [|x rest]; [reflexivity|].
  destruct perm_idx as [|i perm_idx]; [discriminate|].
  destruct best_hyps as [|h best_hyps]; [discriminate|].
  destruct (utt_ids _ bt) as [|utt utts] eqn:Eutt; [discriminate|].
  apply Nat.leb_le in Hfirst.
  destruct ys_perm as [|ref ys_perm]; [discriminate|].
  destruct (trn_suffix_two_fields utt Hfirst) as [suffix Hsuffix].
  cbn [length seq for_range]. unfold Character.eval_utt.
  rewrite Eutt. cbn [index nth_error Py.bind]. rewrite Hsuffix. cbn [Py.bind].
  rewrite (word_level_raises d Hlabels). reflexivity.
Qed.

Lemma eval_batches_ready (d : dataset) (model : Model) (pending : list batch) (s : stats) :
  character_labels _ d = false ->
  Forall (fun bt => ready model bt = true) (pending ++ [last_batch _ d]) ->
  eval_batches d model s pending = Ok s
  \/ eval_batches d model s pending = Raise (NameError "task_index").
Proof.
  intros Hlabels. revert s. induction pending as [|bt pending IH]; intros s Hall.
  - inversion Hall as [|? ? Hlast _]; subst. cbn [Character.eval_batches].
    rewrite (eval_batch_ready d model s _ Hlabels Hlast).
    destruct (xs _ (last_batch _ d)); auto.
  - inversion Hall as [|? ? Hbt Hrest]; subst. cbn [Character.eval_batches].
    rewrite (eval_batch_ready d model s bt Hlabels Hbt).
    destruct (xs _ bt); [|auto].
    cbn [Py.bind]. apply IH. exact Hrest.
Qed.

End EvalChar.

End Evaluation.

(* ================================================================== *)
(** * Further properties of [RNNLM.__init__] *)
(* ================================================================== *)

Module Construction.

Import Rnnlm Examples.

Definition known_rnn_types : list string := ["lstm"; "gru"; "rnn"].

Lemma select_cell_known (t : string) :
  In t known_rnn_types -> exists k, select_cell t = Ok k.
Proof.
  unfold known_rnn_types. simpl.
  intros [<- | [<- | [<- | []]]]; eexists; reflexivity.
Qed.

Lemma select_cell_unknown (t : string) :
  ~ In t known_rnn_types -> select_cell t = Raise (ValueError rnn_type_message).
Proof.
  unfold known_rnn_types, select_cell. simpl. intros H.
  destruct (String.eqb_spec t "lstm") as [->|_]; [tauto|].
  destruct (String.eqb_spec t "gru") as [->|_]; [tauto|].
  destruct (String.eqb_spec t "rnn") as [->|_]; [tauto|].
  reflexivity.
Qed.

Lemma select_cell_ok (t : string) (k : cell) :
  select_cell t = Ok k ->
  (t = "lstm" /\ k = LSTM) \/ (t = "gru" /\ k = GRU) \/ (t = "rnn" /\ k = RNN).
Proof.
  unfold select_cell.
  destruct (String.eqb_spec t "lstm") as [->|_]; [intros [= <-]; auto|].
  destruct (String.eqb_spec t "gru") as [->|_]; [intros [= <-]; auto|].
  destruct (String.eqb_spec t "rnn") as [->|_]; [intros [= <-]; auto|].
  discriminate.
Qed.

(** Construction succeeds exactly when [rnn_type] is one of "lstm", "gru"
    and "rnn" and weight tying is off.  The model then has one more class
    than the vocabulary, uses the vocabulary size as the id of both
    sentinels, has two directions when bidirectional and one otherwise,
    and carries the cell its [rnn_type] names. *)
Theorem init_succeeds_iff (c : config) :
  (forall m, init c = Ok m ->
     In (cfg_rnn_type c) known_rnn_types
     /\ cfg_tie_weights c = false
     /\ sos m = cfg_num_classes c
     /\ eos m = sos m
     /\ num_classes m = (cfg_num_classes c + 1)%Z
     /\ num_directions m = (if cfg_bidirectional c then 2 else 1)%Z
     /\ select_cell (cfg_rnn_type c) = Ok (rnn_cell m))
  /\ (In (cfg_rnn_type c) known_rnn_types ->
      cfg_tie_weights c = false ->
      exists m, init c = Ok m).
Proof.
  split.
  - intros m. unfold init.
    destruct (select_cell (cfg_rnn_type c)) as [k|e] eqn:Ek; [|discriminate].
    cbn [Py.bind]. unfold tie_output_to_embedding.
    destruct (cfg_tie_weights c); [discriminate|]. cbn [Py.bind].
    intros [= <-]. cbn.
    repeat split; try reflexivity.
    destruct (select_cell_ok _ _ Ek) as [[-> _]|[[-> _]|[-> _]]];
      unfold known_rnn_types; simpl; auto.
  - intros Hin Htie. destruct (select_cell_known _ Hin) as [k Hk].
    unfold init, tie_output_to_embedding. rewrite Hk, Htie. cbn. eauto.
Qed.

Lemma init_succeeds_iff_witness : exists m, init cfg5 = Ok m.
Proof.
  apply (proj2 (init_succeeds_iff cfg5)).
  - unfold known_rnn_types. simpl. auto.
  - reflexivity.
Defined.

(** An [rnn_type] other than "lstm", "gru" and "rnn" is rejected with the
    [rnn_type] message before weight tying is looked at: the outcome is the
    same [ValueError] whether or not tying was requested. *)
Theorem unknown_rnn_type_is_rejected_first (c : config) :
  ~ In (cfg_rnn_type c) known_rnn_types ->
  init c = Raise (ValueError rnn_type_message).
Proof.
  intros H. unfold init. rewrite (select_cell_unknown _ H). reflexivity.
Qed.

Lemma unknown_rnn_type_is_rejected_first_witness :
  init {| cfg_embedding_dim := 2; cfg_rnn_type := "transformer";
          cfg_bidirectional := false; cfg_num_units := 3; cfg_num_layers := 1;
          cfg_num_classes := 5; cfg_recurrent_weight_orthogonal := false;
          cfg_init_forget_gate_bias_with_one := true; cfg_tie_weights := true |}
  = Raise (ValueError rnn_type_message).
Proof.
  apply unknown_rnn_type_is_rejected_first.
  unfold known_rnn_types. simpl. intros [H|[H|[H|[]]]]; discriminate H.
Defined.

End Construction.

(* ================================================================== *)
(** * Further properties of the prepared batch and of the loss *)
(* ================================================================== *)

Module BatchShape.

Import Rnnlm Examples BatchPreparation Loss.
Local Open Scope nat_scope.

(** The examples in the order in which they are processed. *)
Definition sorted_batch (ys : list (list Z)) : list (list Z) :=
  map (item ys) (perm_idx ys).

Lemma sorted_batch_length (ys : list (list Z)) :
  length (sorted_batch ys) = length ys.
Proof. unfold sorted_batch. rewrite length_map. apply perm_idx_length. Qed.

Lemma sorted_batch_max_time (ys : list (list Z)) :
  max_time (sorted_batch ys) = max_time ys.
Proof. apply max_time_perm, sorted_batch_perm. Qed.

(** The prepared batch, row by row, as a function of the sorted examples. *)
Lemma prepared_rows (m : rnnlm) (ys : list (list Z)) :
  ys <> [] ->
  prepare m ys
  = Ok {| p_perm_idx := perm_idx ys;
          p_y_lens := map (fun y => length y + 1) (sorted_batch ys);
          p_ys_in := map (fun y => (sos m :: y)
                                     ++ repeat (eos m) (max_time ys - length y))
                         (sorted_batch ys);
          p_ys_out := map (fun y => (y ++ [eos m])
                                      ++ repeat (-1)%Z (max_time ys - length y))
                          (sorted_batch ys) |}.
Proof.
  intros Hne. unfold prepare. fold (sorted_batch ys).
  assert (Hne' : sorted_batch ys <> []).
  { intros E. pose proof (sorted_batch_length ys) as H. rewrite E in H.
    destruct ys; [congruence|discriminate]. }
  destruct (index_head (sorted_batch ys) Hne') as [y0 Hy0].
  rewrite Hy0. cbn [Py.bind]. f_equal. f_equal.
  - unfold pad_list.
    rewrite (max_time_grow (fun y => [sos m] ++ y) _ Hne') by reflexivity.
    rewrite map_map, sorted_batch_max_time. apply map_ext. intros y. reflexivity.
  - unfold pad_list.
    rewrite (max_time_grow (fun y => y ++ [eos m]) _ Hne')
      by (intros; rewrite length_app; simpl; lia).
    rewrite map_map, sorted_batch_max_time. apply map_ext. intros y.
    rewrite length_app. cbn [length].
    replace (S (max_time ys) - (length y + 1)) with (max_time ys - length y) by lia.
    reflexivity.
Qed.

Lemma sorted_batch_in (ys : list (list Z)) (y : list Z) :
  In y (sorted_batch ys) -> In y ys.
Proof. apply Permutation_in, sorted_batch_perm. Qed.

Lemma nth_map_default {A B : Type} (f : A -> B) (l : list A) (d : A) (e : B) (n : nat) :
  n < length l -> nth n (map f l) e = f (nth n l d).
Proof.
  intros H. rewrite nth_indep with (d' := f d) by (rewrite length_map; exact H).
  apply map_nth.
Qed.

(** Every row of [ys_in] starts with the start sentinel; the row of
    [ys_out] has the end sentinel at index [len - 1], [len] being the
    example's true length; past the true length [ys_in] holds the end
    sentinel and [ys_out] the ignore marker; and all rows are as long as
    the longest sequence plus one. *)
Theorem sentinels_and_padding (m : rnnlm) (ys : list (list Z)) (b : nat) :
  b < length ys ->
  exists p,
    prepare m ys = Ok p
    /\ nth 0 (nth b (p_ys_in p) []) 0%Z = sos m
    /\ nth (nth b (p_y_lens p) 0 - 1) (nth b (p_ys_out p) []) 0%Z = eos m
    /\ length (nth b (p_ys_in p) []) = S (max_time ys)
    /\ length (nth b (p_ys_out p) []) = S (max_time ys)
    /\ forall t, nth b (p_y_lens p) 0 <= t < S (max_time ys) ->
         nth t (nth b (p_ys_in p) []) 0%Z = eos m
         /\ nth t (nth b (p_ys_out p) []) 0%Z = (-1)%Z.
Proof.
  intros Hb.
  assert (Hne : ys <> []) by (intros ->; simpl in Hb; lia).
  eexists. split; [apply (prepared_rows m ys Hne)|].
  cbn [p_ys_in p_ys_out p_y_lens].
  assert (Hb' : b < length (sorted_batch ys))
    by (rewrite sorted_batch_length; exact Hb).
  rewrite !(nth_map_default _ (sorted_batch ys) [] _ b Hb').
  set (y := nth b (sorted_batch ys) []).
  assert (Hy : length y <= max_time ys).
  { apply length_le_max_time, sorted_batch_in, nth_In, Hb'. }
  split; [reflexivity|].
  split.
  { replace (length y + 1 - 1) with (length y) by lia.
    rewrite app_nth1 by (rewrite length_app; simpl; lia).
    rewrite app_nth2 by lia. rewrite Nat.sub_diag. reflexivity. }
  split; [cbn [app length]; rewrite length_app, repeat_length; lia|].
  split; [rewrite !length_app, repeat_length; simpl; lia|].
  intros t Ht. split.
  - change (sos m :: y) with ([sos m] ++ y). rewrite <- app_assoc.
    rewrite app_nth2 by (simpl; lia). rewrite app_nth2 by (simpl; lia).
    apply nth_repeat_lt. simpl. lia.
  - rewrite app_nth2 by (rewrite length_app; simpl; lia).
    apply nth_repeat_lt. rewrite length_app. simpl. lia.
Qed.

Lemma sentinels_and_padding_witness :
  exists p,
    prepare lm5 [[1]; [2; 3; 4]]%Z = Ok p
    /\ nth 0 (nth 1 (p_ys_in p) []) 0%Z = 5%Z
    /\ nth 2 (nth 1 (p_ys_out p) []) 0%Z = (-1)%Z.
Proof.
  destruct (sentinels_and_padding lm5 [[1]; [2; 3; 4]]%Z 1 ltac:(simpl; lia))
    as (p & Hp & Hsos & _ & _ & _ & Hpad).
  exists p. split; [exact Hp|]. split; [exact Hsos|].
  injection Hp as <-. apply (Hpad 2). vm_compute. split; lia.
Defined.

(** ** Real tokens *)

Lemma filter_all {A : Type} (f : A -> bool) (l : list A) :
  Forall (fun x => f x = true) l -> filter f l = l.
Proof.
  induction 1 as [|x l Hx _ IH]; simpl; [reflexivity|]. rewrite Hx, IH. reflexivity.
Qed.

Lemma filter_repeat_none {A : Type} (f : A -> bool) (x : A) (n : nat) :
  f x = false -> filter f (repeat x n) = [].
Proof.
  intros Hx. induction n as [|n IH]; simpl; [reflexivity|]. rewrite Hx. exact IH.
Qed.

Lemma count_in_rows {A B : Type} (f : B -> bool) (g : A -> list B) (l : list A) :
  length (filter f (concat (map g l)))
  = list_sum (map (fun x => length (filter f (g x))) l).
Proof.
  induction l as [|x l IH]; simpl; [reflexivity|].
  rewrite filter_app, length_app, IH. reflexivity.
Qed.

Lemma list_sum_perm (l l' : list nat) :
  Permutation l l' -> list_sum l = list_sum l'.
Proof. induction 1; simpl; lia. Qed.

Lemma list_sum_succ {A : Type} (f : A -> nat) (l : list A) :
  list_sum (map (fun x => f x + 1) l) = list_sum (map f l) + length l.
Proof. induction l as [|x l IH]; simpl; lia. Qed.

(** With token ids and the sentinel non-negative, the ignore marker [-1]
    marks the padding and nothing else: the targets that count towards the
    loss number as many as the true lengths add up to, which is the
    number of tokens plus one per example. *)
Theorem real_tokens_are_the_true_lengths (m : rnnlm) (ys : list (list Z)) :
  ys <> [] ->
  (0 <= eos m)%Z ->
  Forall (Forall (fun k => (0 <= k)%Z)) ys ->
  exists p,
    prepare m ys = Ok p
    /\ real_tokens p = list_sum (p_y_lens p)
    /\ list_sum (p_y_lens p) = list_sum (map (@length Z) ys) + length ys.
Proof.
  intros Hne Heos Htok.
  eexists. split; [apply (prepared_rows m ys Hne)|].
  cbn [p_y_lens]. split.
  - unfold real_tokens. cbn [p_ys_out]. rewrite count_in_rows.
    f_equal. apply map_ext_in. intros y Hy.
    apply sorted_batch_in in Hy.
    rewrite Forall_forall in Htok. specialize (Htok y Hy).
    rewrite !filter_app.
    rewrite (filter_repeat_none _ (-1)%Z) by reflexivity.
    rewrite app_nil_r.
    rewrite filter_all.
    + simpl. destruct (eos m =? -1)%Z eqn:E; [apply Z.eqb_eq in E; lia|].
      simpl. rewrite length_app. reflexivity.
    + rewrite Forall_forall in *. intros k Hk. specialize (Htok k Hk).
      destruct (k =? -1)%Z eqn:E; [apply Z.eqb_eq in E; lia|reflexivity].
  - rewrite list_sum_succ, sorted_batch_length. f_equal.
    apply list_sum_perm, Permutation_map, sorted_batch_perm.
Qed.

Lemma real_tokens_are_the_true_lengths_witness :
  exists p, prepare lm5 [[1; 2; 3]; [4]]%Z = Ok p /\ real_tokens p = 6.
Proof.
  destruct (real_tokens_are_the_true_lengths lm5 [[1; 2; 3]; [4]]%Z
              ltac:(discriminate) ltac:(simpl; lia)
              ltac:(repeat constructor; lia))
    as (p & Hp & Hreal & Hsum).
  exists p. split; [exact Hp|]. rewrite Hreal, Hsum. reflexivity.
Defined.

(** ** Order of the true lengths *)

(** The true lengths handed to [pack_padded_sequence] never increase along
    the batch. *)
Theorem true_lengths_descend (m : rnnlm) (ys : list (list Z)) (p : prepared) :
  prepare m ys = Ok p ->
  forall i j, i <= j < length (p_y_lens p) ->
              nth j (p_y_lens p) 0 <= nth i (p_y_lens p) 0.
Proof.
  intros Hp.
  assert (Hne : ys <> []) by (intros ->; discriminate Hp).
  rewrite (prepared_rows m ys Hne) in Hp. injection Hp as <-.
  cbn [p_y_lens]. intros i j Hij.
  rewrite length_map, sorted_batch_length in Hij.
  rewrite !(nth_map_default _ (sorted_batch ys) [] 0)
    by (rewrite sorted_batch_length; lia).
  unfold sorted_batch. rewrite !sorted_batch_nth by lia.
  destruct (Nat.eq_dec i j) as [->|Hne']; [lia|].
  assert (H : before (fun i => length (item ys i))
                     (nth i (perm_idx ys) 0) (nth j (perm_idx ys) 0)).
  { apply strongly_sorted_nth; [apply sorted_desc_seq|].
    rewrite perm_idx_length. lia. }
  destruct H; lia.
Qed.

Lemma true_lengths_descend_witness :
  nth 2 [4; 3; 2] 0 <= nth 0 [4; 3; 2] 0.
Proof.
  apply (true_lengths_descend lm5 [[1]; [2; 3; 4]; [5; 6]]%Z
           {| p_perm_idx := [1; 2; 0]; p_y_lens := [4; 3; 2];
              p_ys_in := [[5; 2; 3; 4]; [5; 5; 6; 5]; [5; 1; 5; 5]]%Z;
              p_ys_out := [[2; 3; 4; 5]; [5; 6; 5; -1]; [1; 5; -1; -1]]%Z |}
           eq_refl 0 2).
  simpl. lia.
Defined.

(** ** Independence of the input order *)

Lemma strongly_sorted_map {A B : Type} (P : A -> A -> Prop) (Q : B -> B -> Prop)
      (f : A -> B) (l : list A) :
  StronglySorted P l ->
  (forall x y, In x l -> In y l -> P x y -> Q (f x) (f y)) ->
  StronglySorted Q (map f l).
Proof.
  induction 1 as [|x l Hs IH Hx]; intros HPQ; simpl; constructor.
  - apply IH. intros a b Ha Hb. apply HPQ; right; assumption.
  - rewrite Forall_forall in *. intros z Hz.
    apply in_map_iff in Hz. destruct Hz as (y & <- & Hy).
    apply HPQ; [left; reflexivity | right; exact Hy | apply Hx, Hy].
Qed.

(** A list has one arrangement that is sorted for a strict order. *)
Lemma sorted_unique {A : Type} (R : A -> A -> Prop) (l1 l2 : list A) :
  (forall x y, R x y -> R y x -> False) ->
  StronglySorted R l1 -> StronglySorted R l2 ->
  Permutation l1 l2 -> l1 = l2.
Proof.
  intros Hasym. revert l2.
  induction l1 as [|x l1 IH]; intros l2 H1 H2 Hperm.
  - apply Permutation_nil in Hperm. congruence.
  - destruct l2 as [|y l2].
    { apply Permutation_sym, Permutation_nil in Hperm. discriminate. }
    inversion H1 as [|? ? H1' Hx]; subst.
    inversion H2 as [|? ? H2' Hy]; subst.
    rewrite Forall_forall in Hx, Hy.
    assert (Exy : x = y).
    { pose proof (Permutation_in x Hperm (or_introl eq_refl)) as Hin2.
      pose proof (Permutation_in y (Permutation_sym Hperm) (or_introl eq_refl))
        as Hin1.
      destruct Hin2 as [E|Hin2]; [congruence|].
      destruct Hin1 as [E|Hin1]; [congruence|].
      exfalso. apply (Hasym x y); [apply Hx, Hin1 | apply Hy, Hin2]. }
    subst y. f_equal. apply IH; try assumption.
    apply Permutation_cons_inv with (a := x). exact Hperm.
Qed.

Lemma sorted_batch_strict (ys : list (list Z)) :
  NoDup (map (@length Z) ys) ->
  StronglySorted (fun x y : list Z => length y < length x) (sorted_batch ys).
Proof.
  intros Hnd. unfold sorted_batch.
  apply strongly_sorted_map with (P := before (fun i => length (item ys i)));
    [apply sorted_desc_seq|].
  intros i j Hi Hj Hij.
  apply (Permutation_in _ (perm_idx_perm ys)) in Hi, Hj.
  apply in_seq in Hi, Hj.
  destruct Hij as [Hlt | [Heq Hlt]]; [exact Hlt|].
  exfalso. rewrite (NoDup_nth (map (@length Z) ys) 0) in Hnd.
  specialize (Hnd i j ltac:(rewrite length_map; lia) ltac:(rewrite length_map; lia)).
  change 0 with (length (@nil Z)) in Hnd. rewrite !map_nth in Hnd.
  unfold item in Heq. specialize (Hnd (eq_sym Heq)). lia.
Qed.

Lemma sorted_batch_order_independent (ys1 ys2 : list (list Z)) :
  Permutation ys1 ys2 ->
  NoDup (map (@length Z) ys1) ->
  sorted_batch ys1 = sorted_batch ys2.
Proof.
  intros Hperm Hnd.
  apply sorted_unique with (R := fun x y : list Z => length y < length x).
  - intros x y. lia.
  - apply sorted_batch_strict, Hnd.
  - apply sorted_batch_strict.
    apply (Permutation_NoDup (Permutation_map (@length Z) Hperm) Hnd).
  - apply perm_trans with ys1; [apply sorted_batch_perm|].
    apply perm_trans with ys2; [exact Hperm|].
    apply Permutation_sym, sorted_batch_perm.
Qed.

Section OrderOfExamples.

Variable Score Real : Type.
Variable rzero : Real.
Variable radd : Real -> Real -> Real.
Variable rdiv : Real -> Z -> Real.
Variable nll : list Score -> Z -> Real.
Variable logits_at : bool -> list (list Z) -> list nat -> nat -> nat -> list Score.

Local Abbreviation forward := (forward Score Real rzero radd rdiv nll logits_at).


(** When the sequences of a batch have pairwise different lengths, the
    order in which they are given does not matter: both orders are
    prepared into the same [ys_in], [ys_out] and true lengths, and the
    loss computed from them is the same. *)
Theorem loss_is_order_independent
        (m : rnnlm) (ys1 ys2 : list (list Z)) (is_eval : bool) :
  Permutation ys1 ys2 ->
  NoDup (map (@length Z) ys1) ->
  (forall p1 p2,
      prepare m ys1 = Ok p1 -> prepare m ys2 = Ok p2 ->
      p_ys_in p1 = p_ys_in p2 /\ p_ys_out p1 = p_ys_out p2
      /\ p_y_lens p1 = p_y_lens p2)
  /\ snd (forward m ys1 is_eval) = snd (forward m ys2 is_eval).
Proof.
  intros Hperm Hnd.
  destruct ys1 as [|y1 ys1'].
  - apply Permutation_nil in Hperm. subst.
    split; [intros p1 p2 H; discriminate H | reflexivity].
  - assert (Hne1 : y1 :: ys1' <> []) by discriminate.
    assert (Hne2 : ys2 <> []).
    { intros ->. apply Permutation_sym, Permutation_nil in Hperm. discriminate. }
    pose proof (sorted_batch_order_independent _ _ Hperm Hnd) as Hsame.
    pose proof (max_time_perm _ _ Hperm) as Hmax.
    split.
    + intros p1 p2.
      rewrite (prepared_rows _ _ Hne1), (prepared_rows _ _ Hne2).
      intros [= <-] [= <-]. cbn [p_ys_in p_ys_out p_y_lens].
      rewrite Hsame, Hmax. auto.
    + unfold Rnnlm.forward. cbn [snd].
      rewrite (prepared_rows _ _ Hne1), (prepared_rows _ _ Hne2).
      cbn [Py.bind]. unfold logits_of. cbn [p_ys_in p_ys_out p_y_lens].
      rewrite Hsame, Hmax. reflexivity.
Qed.

End OrderOfExamples.


Lemma loss_is_order_independent_witness :
  snd (Rnnlm.forward Z Z 0%Z Z.add Z.div (fun x k => nth (Z.to_nat k) x 0%Z)
                     (fun _ _ _ _ _ => [1; 2; 3; 4; 5; 6]%Z)
                     lm5 [[4]; [1; 2; 3]]%Z false)
  = snd (Rnnlm.forward Z Z 0%Z Z.add Z.div (fun x k => nth (Z.to_nat k) x 0%Z)
                       (fun _ _ _ _ _ => [1; 2; 3; 4; 5; 6]%Z)
                       lm5 [[1; 2; 3]; [4]]%Z false).
Proof.
  apply (loss_is_order_independent Z Z 0%Z Z.add Z.div
           (fun x k => nth (Z.to_nat k) x 0%Z)
           (fun _ _ _ _ _ => [1; 2; 3; 4; 5; 6]%Z)
           lm5 [[4]; [1; 2; 3]]%Z [[1; 2; 3]; [4]]%Z false).
  - apply perm_swap.
  - simpl. repeat constructor; simpl; intuition discriminate.
Defined.

End BatchShape.

(* ================================================================== *)
(** * Further properties of greedy decoding *)
(* ================================================================== *)

Module DecodingSteps.

Import Rnnlm Examples Decoding.
Local Open Scope nat_scope.

Lemma sum_flags_some_unset (l : list bool) :
  sum_flags l <> length l -> exists b, b < length l /\ nth b l false = false.
Proof.
  induction l as [|f l IH]; simpl; intros H; [congruence|].
  destruct f.
  - destruct IH as (b & Hb & Hf); [lia|]. exists (S b). split; [lia|exact Hf].
  - exists 0. split; [lia|reflexivity].
Qed.

(** ** Counting up to the first EOS *)

Lemma counted_at_eos (eos_id : Z) (toks : list Z) :
  has_eos eos_id toks = true ->
  1 <= counted eos_id toks <= length toks
  /\ nth (counted eos_id toks - 1) toks 0%Z = eos_id
  /\ has_eos eos_id (firstn (counted eos_id toks - 1) toks) = false.
Proof.
  unfold has_eos. induction toks as [|x toks IH]; simpl; [discriminate|].
  destruct (x =? eos_id)%Z eqn:E; simpl.
  - intros _. apply Z.eqb_eq in E. repeat split; auto; lia.
  - intros H. destruct (IH H) as (Hc & Hn & Hf).
    replace (counted eos_id toks - 0) with (S (counted eos_id toks - 1)) by lia.
    simpl. rewrite E. simpl. repeat split; auto; lia.
Qed.

Lemma counted_firstn (eos_id : Z) (toks : list Z) (k : nat) :
  has_eos eos_id (firstn k toks) = true ->
  counted eos_id (firstn k toks) = counted eos_id toks.
Proof.
  unfold has_eos. revert k. induction toks as [|x toks IH]; intros [|k]; simpl;
    try discriminate.
  destruct (x =? eos_id)%Z; simpl; [reflexivity|].
  intros H. rewrite (IH k H). reflexivity.
Qed.

Lemma counted_without_early_eos (eos_id : Z) (toks : list Z) :
  has_eos eos_id (firstn (length toks - 1) toks) = false ->
  counted eos_id toks = length toks.
Proof.
  unfold has_eos. induction toks as [|x toks IH]; [reflexivity|].
  destruct toks as [|y toks'].
  - simpl. destruct (x =? eos_id)%Z; reflexivity.
  - change (length (x :: y :: toks') - 1) with (S (length toks')).
    cbn [firstn existsb counted]. intros H.
    apply orb_false_iff in H. destruct H as [Hx Hrest]. rewrite Hx.
    change (length (x :: y :: toks')) with (S (length (y :: toks'))).
    f_equal. apply IH.
    change (length (y :: toks') - 1) with (length toks' - 0).
    rewrite Nat.sub_0_r. exact Hrest.
Qed.

Section Loop.

Variable Score : Type.
Variable score_ltb : Score -> Score -> bool.
Variable Emb Out Hidden : Type.
Variable embed : Z -> Emb.
Variable rnn : Emb -> option Hidden -> Out * Hidden.
Variable output : Out -> list Score.

Local Abbreviation greedy := (greedy Score score_ltb Emb Out Hidden embed rnn output).
Local Abbreviation decode_loop :=
  (decode_loop Score score_ltb Emb Out Hidden embed rnn output).
Local Abbreviation decode := (decode Score score_ltb Emb Out Hidden embed rnn output).
Local Abbreviation loop_state := (loop_state Hidden).
Local Abbreviation ex_step :=
  (ex_step Score score_ltb Emb Out Hidden embed rnn output).
Local Abbreviation agrees := (agrees Hidden).
Local Abbreviation tokens :=
  (tokens Score score_ltb Emb Out Hidden embed rnn output).
Local Abbreviation columns :=
  (columns Score score_ltb Emb Out Hidden embed rnn output).

(** ** The number of executed steps *)

(** The state in which [decode] enters its loop (lines 261-278). *)
Definition initial_state (start_tokens : list Z) : loop_state :=
  {| ls_y_in := map (hd (-1)%Z) (pad_list (map (fun y => [y]) start_tokens) (-1));
     ls_h := None;
     ls_best_hyps := [];
     ls_eos_flag := repeat false (length start_tokens);
     ls_y_lens := repeat 1 (length start_tokens) |}.

(** The number of times the body of the loop runs: one column of
    [_best_hyps] is appended per run. *)
Definition decode_iterations (m : rnnlm) (start_tokens : list Z) (max_decode_len : Z)
  : nat :=
  length (ls_best_hyps Hidden
            (decode_loop (eos m) (length start_tokens) (Z.to_nat max_decode_len)
                         (initial_state start_tokens))).

Lemma columns_length (sts : list (Z * option Hidden)) (T : nat) :
  length (columns sts T) = T.
Proof. unfold Decoding.columns. rewrite length_map, length_seq. reflexivity. Qed.

(** As long as the loop keeps running, some example has not emitted EOS. *)
Lemma decode_loop_runs_on (eos_id : Z) (steps : nat) :
  forall (st : loop_state) (sts : list (Z * option Hidden)),
    agrees st sts ->
    length (ls_eos_flag Hidden st) = length sts ->
    length (ls_y_lens Hidden st) = length sts ->
    forall j, 1 <= j ->
      length (ls_best_hyps Hidden st) + j
      < length (ls_best_hyps Hidden (decode_loop eos_id (length sts) steps st)) ->
      exists b, b < length sts
                /\ nth b (ls_eos_flag Hidden st) false = false
                /\ has_eos eos_id (tokens (nth b sts (0%Z, None)) j) = false.
Proof.
  induction steps as [|steps IH]; intros st sts Hag Hfl Hln j Hj Hlong.
  - simpl in Hlong. lia.
  - cbn [Rnnlm.decode_loop] in Hlong.
    rewrite (step_batch_agrees _ _ _ _ _ _ _ _ st sts Hag) in Hlong.
    cbn [fst snd] in Hlong.
    set (y_in' := map fst (map ex_step sts)) in *.
    destruct (count_lengths_spec eos_id y_in' (ls_eos_flag Hidden st)
                (ls_y_lens Hidden st) ltac:(congruence))
      as (Hfl' & Hln' & Hcount).
    rewrite Hfl in Hfl', Hln', Hcount. rewrite Hln in Hln'.
    set (fl := count_lengths eos_id (length sts) y_in' (ls_eos_flag Hidden st)
                             (ls_y_lens Hidden st)) in *.
    destruct (sum_flags (fst fl) =? length sts) eqn:Eall.
    + cbn [ls_best_hyps] in Hlong. rewrite length_app in Hlong. simpl in Hlong. lia.
    + apply Nat.eqb_neq in Eall. rewrite <- Hfl' in Eall.
      set (st1 := {| ls_y_in := y_in';
                     ls_h := Some (map (fun s : Z * option Hidden =>
                                          snd (greedy_next Score score_ltb Emb Out
                                                 Hidden embed rnn output
                                                 (fst s) (snd s))) sts);
                     ls_best_hyps := ls_best_hyps Hidden st ++ [y_in'];
                     ls_eos_flag := fst fl; ls_y_lens := snd fl |}) in *.
      assert (Hag1 : agrees st1 (map ex_step sts)).
      { apply (agrees_after_step _ _ _ _ _ _ _ _ st st1 sts Hag);
          rewrite (step_batch_agrees _ _ _ _ _ _ _ _ st sts Hag); reflexivity. }
      assert (Hunset : forall b, b < length sts ->
                nth b (fst fl) false = false ->
                nth b (ls_eos_flag Hidden st) false = false
                /\ (fst (ex_step (nth b sts (0%Z, None))) =? eos_id)%Z = false).
      { intros b Hb Hf. destruct (Hcount b Hb) as [Hf' _]. rewrite Hf' in Hf.
        apply orb_false_iff in Hf. destruct Hf as [Hf1 Hf2].
        unfold y_in' in Hf2.
        rewrite (nth_first_tokens _ _ _ _ _ _ _ _ sts b Hb) in Hf2. auto. }
      destruct (Nat.eq_dec j 1) as [->|Hj1].
      * destruct (sum_flags_some_unset (fst fl) Eall) as (b & Hb & Hf).
        rewrite Hfl' in Hb. destruct (Hunset b Hb Hf) as [Hflag Htok].
        exists b. split; [exact Hb|]. split; [exact Hflag|].
        rewrite tokens_S, tokens_0. unfold has_eos. cbn [existsb].
        rewrite Htok. reflexivity.
      * destruct (IH st1 (map ex_step sts) Hag1
                     ltac:(rewrite length_map; exact Hfl')
                     ltac:(rewrite length_map; exact Hln')
                     (j - 1) ltac:(lia))
          as (b & Hb & Hf & Hno).
        { rewrite length_map. cbn [ls_best_hyps st1]. rewrite length_app.
          simpl. lia. }
        rewrite length_map in Hb. cbn [ls_eos_flag st1] in Hf.
        destruct (Hunset b Hb Hf) as [Hflag Htok].
        exists b. split; [exact Hb|]. split; [exact Hflag|].
        rewrite (nth_ex_step _ _ _ _ _ _ _ _ sts b Hb) in Hno.
        replace j with (S (j - 1)) by lia.
        rewrite tokens_S. unfold has_eos in *. cbn [existsb].
        rewrite Htok, Hno. reflexivity.
Qed.

Lemma initial_agrees (start_tokens : list Z) :
  agrees (initial_state start_tokens)
         (map (fun s : Z => (s, @None Hidden)) start_tokens).
Proof.
  split.
  - cbn [ls_y_in initial_state]. rewrite pad_singletons.
    rewrite map_map. simpl. rewrite map_id. reflexivity.
  - intros b Hb. cbn [ls_h initial_state hx_at].
    rewrite (map_nth (fun s : Z => (s, @None Hidden))). reflexivity.
Qed.

Lemma decode_unfold (m : rnnlm) (start_tokens : list Z) (max_decode_len : Z) :
  decode m start_tokens max_decode_len
  = (set_training m false,
     Py.bind
       (cat_columns (length start_tokens)
          (ls_best_hyps Hidden
             (decode_loop (eos m) (length start_tokens) (Z.to_nat max_decode_len)
                          (initial_state start_tokens))))
       (fun hyps =>
          Ok (map (fun b =>
                     firstn (nth b (ls_y_lens Hidden
                                      (decode_loop (eos m) (length start_tokens)
                                                   (Z.to_nat max_decode_len)
                                                   (initial_state start_tokens))) 0)
                            (nth b hyps []))
                  (seq 0 (length start_tokens))))).
Proof. reflexivity. Qed.

(** [decode] in closed form, with the number of executed steps made
    explicit. *)
Lemma decode_with_iterations (m : rnnlm) (start_tokens : list Z) (max_decode_len : Z) :
  (1 <= max_decode_len)%Z ->
  1 <= decode_iterations m start_tokens max_decode_len <= Z.to_nat max_decode_len
  /\ decode m start_tokens max_decode_len
     = (set_training m false,
        Ok (map (fun s =>
                   firstn (1 + counted (eos m)
                                 (greedy s (decode_iterations m start_tokens
                                                              max_decode_len)))
                          (greedy s (decode_iterations m start_tokens max_decode_len)))
                start_tokens))
  /\ (decode_iterations m start_tokens max_decode_len < Z.to_nat max_decode_len ->
      forall s, In s start_tokens ->
        has_eos (eos m)
                (greedy s (decode_iterations m start_tokens max_decode_len)) = true)
  /\ (forall j, 1 <= j < decode_iterations m start_tokens max_decode_len ->
        exists s, In s start_tokens /\ has_eos (eos m) (greedy s j) = false).
Proof.
  intros Hmax.
  set (sts := map (fun s : Z => (s, @None Hidden)) start_tokens).
  set (B := length start_tokens).
  assert (HB : length sts = B) by (unfold sts; apply length_map).
  pose proof (initial_agrees start_tokens) as Hag. fold sts in Hag.
  assert (Hfl0 : length (ls_eos_flag Hidden (initial_state start_tokens)) = length sts)
    by (cbn [ls_eos_flag initial_state]; rewrite repeat_length;
        unfold sts; rewrite length_map; reflexivity).
  assert (Hln0 : length (ls_y_lens Hidden (initial_state start_tokens)) = length sts)
    by (cbn [ls_y_lens initial_state]; rewrite repeat_length;
        unfold sts; rewrite length_map; reflexivity).
  destruct (decode_loop_spec Score score_ltb Emb Out Hidden embed rnn output
              (eos m) (Z.to_nat max_decode_len) (initial_state start_tokens) sts
              Hag Hfl0 Hln0)
    as (T & HT & HT0 & Hbest & Hlen & Hlens & Hdone).
  pose proof (decode_loop_runs_on (eos m) (Z.to_nat max_decode_len)
                (initial_state start_tokens) sts Hag Hfl0 Hln0) as Hruns.
  rewrite HB in Hbest, Hlen, Hlens, Hdone, Hruns.
  assert (Hnth : forall b, nth b sts (0%Z, None) = (nth b start_tokens 0%Z, None)).
  { intros b. unfold sts. apply (map_nth (fun s : Z => (s, @None Hidden))). }
  assert (Hiter : decode_iterations m start_tokens max_decode_len = T).
  { unfold decode_iterations. fold B. rewrite Hbest.
    cbn [ls_best_hyps initial_state app]. apply columns_length. }
  rewrite Hiter. split; [lia|]. split; [|split].
  - rewrite decode_unfold. fold B. f_equal. rewrite Hbest.
    cbn [ls_best_hyps initial_state app].
    destruct T as [|T']; [lia|].
    rewrite columns_S. cbn [cat_columns Py.bind]. rewrite <- columns_S.
    f_equal.
    rewrite <- (map_over_range 0%Z
                  (fun s => firstn (1 + counted (eos m) (greedy s (S T')))
                                   (greedy s (S T')))).
    fold B. apply map_ext_in. intros b Hb. apply in_seq in Hb.
    rewrite (Hlens b ltac:(lia)). cbn [ls_y_lens ls_eos_flag initial_state].
    fold B.
    rewrite (nth_repeat_lt 1 0) by lia. rewrite (nth_repeat_lt false false) by lia.
    rewrite nth_indep
      with (d' := (fun b => map (fun col : list Z => nth b col 0%Z)
                                (columns sts (S T'))) 0)
      by (rewrite length_map, length_seq; lia).
    rewrite (map_nth (fun b => map (fun col : list Z => nth b col 0%Z)
                                   (columns sts (S T')))).
    rewrite seq_nth by lia. cbn [Nat.add].
    rewrite row_of_columns by lia.
    rewrite Hnth. reflexivity.
  - intros HT' s Hs. apply In_nth with (d := 0%Z) in Hs.
    destruct Hs as (b & Hb & <-).
    destruct (Hdone HT' b Hb) as [Hd|Hd].
    + cbn [ls_eos_flag initial_state] in Hd. fold B in Hd.
      rewrite (nth_repeat_lt false false) in Hd by exact Hb. discriminate.
    + rewrite Hnth in Hd. exact Hd.
  - intros j Hj.
    destruct (Hruns j ltac:(lia)) as (b & Hb & _ & Hno).
    { rewrite Hbest. cbn [ls_best_hyps initial_state app length].
      rewrite columns_length. lia. }
    exists (nth b start_tokens 0%Z). split; [apply nth_In; exact Hb|].
    rewrite Hnth in Hno. exact Hno.
Qed.

(** ** Batch order *)

(** C9.  Whenever [decode] returns, it returns one hypothesis per start
    token, in the order of the start tokens, and the hypothesis at index
    [b] is generated from [start_tokens[b]] alone: with [T] the number of
    executed steps (at least one, at most [max_decode_len], and the first
    step by which every example has emitted EOS when there is one), it is
    the first [1 + c] of the [T] greedy tokens of [start_tokens[b]], [c]
    counting them up to and including the first EOS; it is never empty.
    [decode] does return as soon as one step is allowed.  No reordering by
    length takes place, whereas the training batch [[1], [2,3]] is
    processed in the order [1, 0]. *)
Theorem decode_preserves_batch_order
        (m : rnnlm) (start_tokens : list Z) (max_decode_len : Z) :
  (forall hyps,
      snd (decode m start_tokens max_decode_len) = Ok hyps ->
      length hyps = length start_tokens
      /\ exists T,
           1 <= T <= Z.to_nat max_decode_len
           /\ (T < Z.to_nat max_decode_len ->
               forall s, In s start_tokens -> has_eos (eos m) (greedy s T) = true)
           /\ (forall j, 1 <= j < T ->
                 exists s, In s start_tokens /\ has_eos (eos m) (greedy s j) = false)
           /\ forall b, b < length start_tokens ->
                nth b hyps []
                = firstn (1 + counted (eos m) (greedy (nth b start_tokens 0%Z) T))
                         (greedy (nth b start_tokens 0%Z) T)
                /\ 1 <= length (nth b hyps []))
  /\ ((1 <= max_decode_len)%Z ->
      exists hyps, snd (decode m start_tokens max_decode_len) = Ok hyps)
  /\ perm_idx [[1]; [2; 3]]%Z = [1; 0].
Proof.
  split; [|split; [|reflexivity]].
  - intros hyps Hret.
    destruct (Z_le_gt_dec 1 max_decode_len) as [Hmax|Hmax].
    + destruct (decode_with_iterations m start_tokens max_decode_len Hmax)
        as (HT & Hdec & Hdone & Hruns).
      set (T := decode_iterations m start_tokens max_decode_len) in *.
      rewrite Hdec in Hret. cbn [snd] in Hret. injection Hret as <-.
      split; [apply length_map|].
      exists T.
      split; [exact HT|]. split; [exact Hdone|]. split; [exact Hruns|].
      intros b Hb.
      rewrite (hypotheses_nth
                 (fun s => firstn (1 + counted (eos m) (greedy s T)) (greedy s T)))
        by exact Hb.
      split; [reflexivity|].
      rewrite length_firstn, greedy_length. lia.
    + rewrite decode_without_steps in Hret by lia. discriminate.
  - intros Hmax.
    destruct (decode_with_iterations m start_tokens max_decode_len Hmax)
      as (_ & Hdec & _ & _).
    eexists. rewrite Hdec. reflexivity.
Qed.

(** ** When the loop stops *)

(** With at least one step allowed, the loop runs between one and
    [max_decode_len] times.  It stops before [max_decode_len] only at a
    step by which every example has emitted EOS, and it does not run past
    such a step: if every example has emitted EOS within its first [k]
    tokens, at most [k] steps are executed.  Every hypothesis has at least
    one token and at most as many as steps were executed. *)
Theorem decode_stops_when_all_finished
        (m : rnnlm) (start_tokens : list Z) (max_decode_len : Z) :
  (1 <= max_decode_len)%Z ->
  1 <= decode_iterations m start_tokens max_decode_len <= Z.to_nat max_decode_len
  /\ (decode_iterations m start_tokens max_decode_len < Z.to_nat max_decode_len ->
      forall s, In s start_tokens ->
        has_eos (eos m)
                (greedy s (decode_iterations m start_tokens max_decode_len)) = true)
  /\ (forall k, 1 <= k ->
        (forall s, In s start_tokens -> has_eos (eos m) (greedy s k) = true) ->
        decode_iterations m start_tokens max_decode_len <= k)
  /\ (exists hyps,
        snd (decode m start_tokens max_decode_len) = Ok hyps
        /\ forall b, b < length start_tokens ->
             1 <= length (nth b hyps [])
               <= decode_iterations m start_tokens max_decode_len).
Proof.
  intros Hmax.
  destruct (decode_with_iterations m start_tokens max_decode_len Hmax)
    as (HT & Hdec & Hdone & Hruns).
  split; [exact HT|]. split; [exact Hdone|]. split.
  - intros k Hk Hall.
    destruct (Nat.le_gt_cases (decode_iterations m start_tokens max_decode_len) k)
      as [Hle|Hgt]; [exact Hle|].
    destruct (Hruns k ltac:(lia)) as (s & Hs & Hno).
    rewrite (Hall s Hs) in Hno. discriminate.
  - eexists. split; [rewrite Hdec; reflexivity|].
    intros b Hb.
    rewrite (hypotheses_nth
               (fun s => firstn (1 + counted (eos m) (greedy s _)) (greedy s _)))
      by exact Hb.
    rewrite length_firstn, greedy_length. lia.
Qed.

(** ** Hypotheses and the first EOS *)

(** An example that emits EOS within [max_decode_len] steps, for the
    first time at step [t], gets a hypothesis that starts with its first
    [t] greedy tokens, has EOS at index [t - 1] and nowhere before, and has
    [t] or [t + 1] tokens: at most one token follows the EOS. *)
Theorem hypothesis_ends_at_most_one_past_eos
        (m : rnnlm) (start_tokens : list Z) (max_decode_len : Z) (b : nat) :
  (1 <= max_decode_len)%Z ->
  b < length start_tokens ->
  has_eos (eos m) (greedy (nth b start_tokens 0%Z) (Z.to_nat max_decode_len)) = true ->
  exists hyps t,
    snd (decode m start_tokens max_decode_len) = Ok hyps
    /\ t = counted (eos m) (greedy (nth b start_tokens 0%Z) (Z.to_nat max_decode_len))
    /\ firstn t (nth b hyps []) = greedy (nth b start_tokens 0%Z) t
    /\ nth (t - 1) (nth b hyps []) 0%Z = eos m
    /\ has_eos (eos m) (firstn (t - 1) (nth b hyps [])) = false
    /\ t <= length (nth b hyps []) <= t + 1.
Proof.
  intros Hmax Hb Heos.
  destruct (decode_with_iterations m start_tokens max_decode_len Hmax)
    as (HT & Hdec & Hdone & _).
  set (T := decode_iterations m start_tokens max_decode_len) in *.
  set (s := nth b start_tokens 0%Z) in *.
  set (N := Z.to_nat max_decode_len) in *.
  assert (HeosT : has_eos (eos m) (greedy s T) = true).
  { destruct (Nat.eq_dec T N) as [->|Hne]; [exact Heos|].
    apply Hdone; [lia|]. apply nth_In. exact Hb. }
  assert (Hcount : counted (eos m) (greedy s T) = counted (eos m) (greedy s N)).
  { rewrite <- (greedy_prefix Score score_ltb Emb Out Hidden embed rnn output s T N) by lia.
    apply counted_firstn.
    rewrite (greedy_prefix Score score_ltb Emb Out Hidden embed rnn output s T N) by lia. exact HeosT. }
  destruct (counted_at_eos (eos m) (greedy s T) HeosT) as (Hc & Hn & Hf).
  rewrite greedy_length in Hc.
  eexists. exists (counted (eos m) (greedy s N)).
  split; [rewrite Hdec; reflexivity|]. split; [reflexivity|].
  rewrite (hypotheses_nth
             (fun s => firstn (1 + counted (eos m) (greedy s T)) (greedy s T)))
    by exact Hb.
  fold s. rewrite Hcount in *.
  set (t := counted (eos m) (greedy s N)) in *.
  split.
  { rewrite firstn_firstn. rewrite Nat.min_l by lia.
    apply greedy_prefix. lia. }
  split.
  { rewrite nth_firstn.
    destruct (t - 1 <? 1 + t) eqn:E; [exact Hn|apply Nat.ltb_ge in E; lia]. }
  split.
  { rewrite firstn_firstn. rewrite Nat.min_l by lia. exact Hf. }
  rewrite length_firstn, greedy_length. lia.
Qed.

(** A batch of one start token: the hypothesis is the greedy tokens up to
    and including the first EOS, or all [max_decode_len] of them when
    there is none.  Nothing follows the EOS. *)
Theorem single_example_is_cut_at_eos (m : rnnlm) (s : Z) (max_decode_len : Z) :
  (1 <= max_decode_len)%Z ->
  snd (decode m [s] max_decode_len)
  = Ok [greedy s (counted (eos m) (greedy s (Z.to_nat max_decode_len)))].
Proof.
  intros Hmax.
  destruct (decode_with_iterations m [s] max_decode_len Hmax)
    as (HT & Hdec & Hdone & Hruns).
  set (T := decode_iterations m [s] max_decode_len) in *.
  set (N := Z.to_nat max_decode_len) in *.
  assert (Hearly : has_eos (eos m) (firstn (T - 1) (greedy s T)) = false).
  { rewrite greedy_prefix by lia.
    destruct (Nat.eq_dec T 1) as [E|E]; [rewrite E; reflexivity|].
    destruct (Hruns (T - 1) ltac:(lia)) as (s' & [<-|[]] & Hno). exact Hno. }
  assert (HcT : counted (eos m) (greedy s T) = T).
  { transitivity (length (greedy s T)); [|apply greedy_length].
    apply counted_without_early_eos. rewrite greedy_length. exact Hearly. }
  assert (HcN : counted (eos m) (greedy s N) = T).
  { destruct (Nat.eq_dec T N) as [E|E]; [rewrite <- E; exact HcT|].
    transitivity (counted (eos m) (greedy s T)); [|exact HcT].
    rewrite <- (greedy_prefix Score score_ltb Emb Out Hidden embed rnn output s T N)
      by lia.
    symmetry. apply counted_firstn.
    rewrite greedy_prefix by lia.
    apply Hdone; [lia|]. left. reflexivity. }
  rewrite Hdec. cbn [snd map]. rewrite HcT, HcN.
  rewrite firstn_all2 by (rewrite greedy_length; lia). reflexivity.
Qed.

(** Without a single step allowed, [decode] raises: there is no column to
    concatenate.  The model has been put into evaluation mode by then. *)
Theorem decode_needs_a_step (m : rnnlm) (start_tokens : list Z) (max_decode_len : Z) :
  (max_decode_len <= 0)%Z ->
  decode m start_tokens max_decode_len = (set_training m false, Raise RuntimeError)
  /\ decode_iterations m start_tokens max_decode_len = 0.
Proof.
  intros H. split.
  - apply decode_without_steps. exact H.
  - unfold decode_iterations.
    replace (Z.to_nat max_decode_len) with 0 by lia. reflexivity.
Qed.

End Loop.

(** ** Concrete runs *)

Local Abbreviation stub_iterations next :=
  (decode_iterations Z Z.ltb Z Z unit (fun x => x) (fun x _ => (x, tt))
                     (fun o => one_hot (next o))).

Lemma decode_preserves_batch_order_witness :
  snd (stub_decode chain lm5 [0; 1]%Z 3%Z) = Ok [[5; 1]; [2; 3; 5]]%Z
  /\ exists T,
       1 <= T <= 3
       /\ nth 1 [[5; 1]; [2; 3; 5]]%Z []
          = firstn (1 + counted 5%Z (stub_greedy chain 1%Z T)) (stub_greedy chain 1%Z T)
       /\ nth 0 [[5; 1]; [2; 3; 5]]%Z []
          = firstn (1 + counted 5%Z (stub_greedy chain 0%Z T)) (stub_greedy chain 0%Z T).
Proof.
  split; [reflexivity|].
  destruct (decode_preserves_batch_order Z Z.ltb Z Z unit (fun x => x)
              (fun x _ => (x, tt)) (fun o => one_hot (chain o))
              lm5 [0; 1]%Z 3%Z) as [H _].
  destruct (H [[5; 1]; [2; 3; 5]]%Z eq_refl) as (_ & T & HT & _ & _ & Hrows).
  exists T. split; [exact HT|]. split.
  - exact (proj1 (Hrows 1 ltac:(simpl; lia))).
  - exact (proj1 (Hrows 0 ltac:(simpl; lia))).
Defined.

Lemma decode_stops_when_all_finished_witness :
  stub_iterations always_eos lm5 [5; 0]%Z 3%Z <= 1.
Proof.
  destruct (decode_stops_when_all_finished Z Z.ltb Z Z unit (fun x => x)
              (fun x _ => (x, tt)) (fun o => one_hot (always_eos o))
              lm5 [5; 0]%Z 3%Z ltac:(lia)) as (_ & _ & H & _).
  apply (H 1 (le_n 1)).
  intros s [<-|[<-|[]]]; reflexivity.
Defined.

Lemma hypothesis_ends_at_most_one_past_eos_witness :
  exists hyps t,
    snd (stub_decode chain lm5 [0; 1]%Z 3%Z) = Ok hyps
    /\ t = 1
    /\ nth (t - 1) (nth 0 hyps []) 0%Z = 5%Z
    /\ length (nth 0 hyps []) <= t + 1.
Proof.
  destruct (hypothesis_ends_at_most_one_past_eos Z Z.ltb Z Z unit (fun x => x)
              (fun x _ => (x, tt)) (fun o => one_hot (chain o))
              lm5 [0; 1]%Z 3%Z 0 ltac:(lia) ltac:(simpl; lia) eq_refl)
    as (hyps & t & Hret & Ht & _ & Hn & _ & Hlen).
  exists hyps, t. repeat split; try assumption. lia.
Defined.

Lemma single_example_is_cut_at_eos_witness :
  snd (stub_decode chain lm5 [1%Z] 5%Z) = Ok [[2; 3; 5]%Z].
Proof.
  exact (single_example_is_cut_at_eos Z Z.ltb Z Z unit (fun x => x)
           (fun x _ => (x, tt)) (fun o => one_hot (chain o))
           lm5 1%Z 5%Z ltac:(lia)).
Defined.

Lemma decode_needs_a_step_witness :
  stub_decode chain lm5 [1%Z] 0%Z = (set_training lm5 false, Raise RuntimeError).
Proof.
  exact (proj1 (decode_needs_a_step Z Z.ltb Z Z unit (fun x => x)
                  (fun x _ => (x, tt)) (fun o => one_hot (chain o))
                  lm5 [1%Z] 0%Z ltac:(lia))).
Defined.

End DecodingSteps.

(* ================================================================== *)
(** * Further properties of [Updater.__call__] *)
(* ================================================================== *)

Module StepOutcome.

Import Updater Examples.

(** ** The guard against infinite losses *)

Lemma sanitize_cases (x : pyfloat) :
  match x with
  | PosInf | NegInf => sanitize x = Finite 0
  | Finite _ | NaN => sanitize x = x
  end.
Proof.
  destruct x as [q| | |]; reflexivity.
Qed.

Lemma sanitize_not_infinite (x : pyfloat) :
  sanitize x <> PosInf /\ sanitize x <> NegInf.
Proof.
  pose proof (sanitize_cases x) as H.
  destruct x; rewrite H; split; discriminate.
Qed.

Section Backends.

Variable Frame Target Params Grads Loss : Type.
Variable model_call : Params -> batch Frame Target -> bool -> outcome Loss.
Variable backward : Loss -> Grads -> Grads * outcome unit.
Variable zero_grad : Grads -> Grads.
Variable clip : Q -> Grads -> Grads.
Variable optimizer_step : Params -> Grads -> Params * outcome unit.
Variable loss_data : Loss -> pyfloat.

Local Abbreviation model := (model Params Grads).
Local Abbreviation batch := (batch Frame Target).
Local Abbreviation try_body :=
  (try_body Frame Target Params Grads Loss model_call backward zero_grad clip
            optimizer_step loss_data).
Local Abbreviation call :=
  (call Frame Target Params Grads Loss model_call backward zero_grad clip
        optimizer_step loss_data).

Ltac open_call :=
  unfold Updater.call, try_except_runtime, Updater.try_body, except_handler,
    pytorch_step, chainer_step, seq_stmt, do_zero_grad, empty_cache_if_gpu,
    do_model_call, do_backward, do_clip, do_optimizer_step, ret, raise,
    with_grads, with_params in *.

(** What the call makes of the outcome of the step. *)
Lemma call_of_step (u : updater) (m m1 : model) (b : batch) (is_eval : bool) :
  (forall x, try_body u b is_eval m = (m1, Ok x) ->
             call u m b is_eval = (m1, Ok (sanitize x)))
  /\ (forall e, try_body u b is_eval m = (m1, Raise e) ->
                is_runtime_error e = false ->
                call u m b is_eval = (m1, Raise e)).
Proof.
  split; intros r Hbody; unfold Updater.call, seq_stmt, try_except_runtime;
    rewrite Hbody; [reflexivity|]. intros ->. reflexivity.
Qed.

(** The call never returns an infinite loss value, whatever the backend
    operations do. *)
Theorem returned_loss_is_never_infinite
        (u : updater) (m m' : model) (b : batch) (is_eval : bool) (v : pyfloat) :
  call u m b is_eval = (m', Ok v) ->
  v <> PosInf /\ v <> NegInf.
Proof.
  unfold Updater.call, try_except_runtime, seq_stmt, ret.
  destruct (Updater.try_body _ _ _ _ _ _ _ _ _ _ _ u b is_eval m) as [m1 [x|e]].
  - intros [= _ <-]. apply sanitize_not_infinite.
  - destruct (is_runtime_error e); [|discriminate].
    destruct (except_handler Frame Target Params Grads zero_grad u b m1)
      as [m2 [[]|e']]; [|discriminate].
    intros [= _ <-]. apply sanitize_not_infinite.
Qed.

(** When the step goes through, a finite loss and NaN are returned as
    they are and an infinite loss is returned as 0.  The guard only
    rewrites the returned number: the model is the one the step produced,
    so an update computed from an infinite loss stays applied. *)
Theorem infinite_loss_is_reported_as_zero
        (u : updater) (m m1 : model) (b : batch) (is_eval : bool) (x : pyfloat) :
  try_body u b is_eval m = (m1, Ok x) ->
  call u m b is_eval
  = (m1, Ok match x with
            | PosInf | NegInf => Finite 0
            | Finite _ | NaN => x
            end).
Proof.
  intros Hbody. rewrite (proj1 (call_of_step u m m1 b is_eval) x Hbody).
  pose proof (sanitize_cases x) as H. destruct x; rewrite H; reflexivity.
Qed.

(** ** Errors that are not contained *)

(** With a backend other than 'pytorch' and 'chainer' the call does
    nothing to the model and raises [UnboundLocalError] for [loss],
    whatever [is_eval] is. *)
Theorem unknown_backend_fails (u : updater) (m : model) (b : batch) (is_eval : bool) :
  backend u <> "pytorch" ->
  backend u <> "chainer" ->
  call u m b is_eval = (m, Raise (UnboundLocalError "loss")).
Proof.
  intros Hpt Hch. apply String.eqb_neq in Hpt, Hch.
  apply (proj2 (call_of_step u m m b is_eval)); [|reflexivity].
  unfold Updater.try_body. rewrite Hpt, Hch. reflexivity.
Qed.

Lemma known_backend_at_runtime_error
      (u : updater) (m m1 : model) (b : batch) (is_eval : bool) (e : exn) :
  try_body u b is_eval m = (m1, Raise e) ->
  is_runtime_error e = true ->
  String.eqb (backend u) "pytorch" = true \/ String.eqb (backend u) "chainer" = true.
Proof.
  unfold Updater.try_body.
  destruct (String.eqb (backend u) "pytorch"); [auto|].
  destruct (String.eqb (backend u) "chainer"); [auto|].
  unfold raise. intros [= _ <-]. discriminate.
Qed.

(** [except RuntimeError] contains [RuntimeError] and its subclass
    [NotImplementedError], and nothing else.  Any other exception of the
    step leaves the call as it is, with the model as the step left it (the
    gradients are not cleared); a [NotImplementedError] is handled like a
    [RuntimeError]: on a batch with at least one input sequence the
    gradients are cleared and the loss value 0 is returned. *)
Theorem other_exceptions_propagate
        (u : updater) (m m1 : model) (b : batch) (is_eval : bool) (e : exn) :
  try_body u b is_eval m = (m1, Raise e) ->
  (e <> RuntimeError -> e <> NotImplementedError ->
   call u m b is_eval = (m1, Raise e))
  /\ (e = NotImplementedError -> xs _ _ b <> [] ->
      call u m b is_eval
      = (with_grads _ _ m1 (zero_grad (grads _ _ m1)), Ok (Finite 0))).
Proof.
  intros Hbody. split.
  - intros He1 He2. apply (proj2 (call_of_step u m m1 b is_eval) e Hbody).
    destruct e; try reflexivity; congruence.
  - intros -> Hxs.
    pose proof (known_backend_at_runtime_error u m m1 b is_eval _ Hbody eq_refl)
      as Hbackend.
    destruct (TrainingStep.max_frame_num_nonempty Frame Target b Hxs) as [n Hn].
    unfold Updater.call, seq_stmt, try_except_runtime. rewrite Hbody.
    cbn [is_runtime_error]. unfold except_handler, seq_stmt. rewrite Hn.
    cbn [Py.bind]. unfold do_zero_grad, empty_cache_if_gpu, ret.
    destruct Hbackend as [E|E]; rewrite E.
    + cbn. destruct (device_id _ _ m1 >=? 0)%Z; reflexivity.
    + destruct (String.eqb (backend u) "pytorch"); cbn;
        [destruct (device_id _ _ m1 >=? 0)%Z|]; reflexivity.
Qed.

(** ** The paths that only run the model *)


(** ** The paths that update the model *)

(** Gradients left over from an earlier step have no influence on an
    updating step (pytorch without [is_eval], chainer with it): clearing
    gives the same gradients whatever was there, and everything that
    follows starts from the cleared gradients. *)
Theorem stale_gradients_have_no_influence
        (u : updater) (m : model) (b : batch) (is_eval : bool) (g : Grads) :
  (forall g1 g2, zero_grad g1 = zero_grad g2) ->
  (backend u = "pytorch" /\ is_eval = false)
  \/ (backend u = "chainer" /\ is_eval = true) ->
  call u (with_grads _ _ m g) b is_eval = call u m b is_eval.
Proof.
  intros Hzero [[Hb ->]|[Hb ->]]; open_call; rewrite Hb; cbn;
    rewrite (Hzero g (grads _ _ m)); reflexivity.
Qed.


End Backends.

(** ** Concrete runs *)

Lemma returned_loss_is_never_infinite_witness :
  Finite (inject_Z 10) <> PosInf /\ Finite (inject_Z 10) <> NegInf.
Proof.
  exact (returned_loss_is_never_infinite Z Z Z Z Z
           (fun p _ _ => Ok p) (fun _ g => ((g + 1)%Z, Ok tt))
           (fun _ => 0%Z) (fun _ g => g) plain_update
           (fun l => Finite (inject_Z l))
           pytorch_updater stub_model stub_model stub_batch true
           (Finite (inject_Z 10)) eq_refl).
Defined.

(** A training step whose loss value is infinite: the update is applied
    (the parameter goes from 10 to 9) and 0 is returned. *)
Lemma infinite_loss_is_reported_as_zero_witness :
  Updater.call Z Z Z Z Z
    (fun p _ _ => Ok p) (fun _ g => ((g + 1)%Z, Ok tt))
    (fun _ => 0%Z) (fun _ g => g) plain_update (fun _ => PosInf)
    pytorch_updater stub_model stub_batch false
  = ({| params := 9%Z; grads := 1%Z; device_id := (-1)%Z |}, Ok (Finite 0)).
Proof.
  exact (infinite_loss_is_reported_as_zero Z Z Z Z Z
           (fun p _ _ => Ok p) (fun _ g => ((g + 1)%Z, Ok tt))
           (fun _ => 0%Z) (fun _ g => g) plain_update (fun _ => PosInf)
           pytorch_updater stub_model
           {| params := 9%Z; grads := 1%Z; device_id := (-1)%Z |}
           stub_batch false PosInf eq_refl).
Defined.

Lemma unknown_backend_fails_witness :
  stub_call plain_update {| clip_grad_norm := 5%Q; backend := "tensorflow" |}
            stub_model stub_batch false
  = (stub_model, Raise (UnboundLocalError "loss")).
Proof.
  apply (unknown_backend_fails Z Z Z Z Z
           (fun p _ _ => Ok p) (fun _ g => ((g + 1)%Z, Ok tt))
           (fun _ => 0%Z) (fun _ g => g) plain_update
           (fun l => Finite (inject_Z l))
           {| clip_grad_norm := 5%Q; backend := "tensorflow" |}
           stub_model stub_batch false); discriminate.
Defined.

(** A model call that raises [ValueError] during a training step leaves
    the call; one that raises [NotImplementedError] is contained. *)
Lemma other_exceptions_propagate_witness :
  Updater.call Z Z Z Z Z
    (fun _ _ _ => Raise (ValueError "bad input")) (fun _ g => ((g + 1)%Z, Ok tt))
    (fun _ => 0%Z) (fun _ g => g) plain_update (fun l => Finite (inject_Z l))
    pytorch_updater {| params := 10%Z; grads := 4%Z; device_id := (-1)%Z |}
    stub_batch false
  = ({| params := 10%Z; grads := 0%Z; device_id := (-1)%Z |},
     Raise (ValueError "bad input"))
  /\ Updater.call Z Z Z Z Z
       (fun _ _ _ => Raise NotImplementedError) (fun _ g => ((g + 1)%Z, Ok tt))
       (fun _ => 0%Z) (fun _ g => g) plain_update (fun l => Finite (inject_Z l))
       pytorch_updater {| params := 10%Z; grads := 4%Z; device_id := (-1)%Z |}
       stub_batch true
     = ({| params := 10%Z; grads := 0%Z; device_id := (-1)%Z |}, Ok (Finite 0)).
Proof.
  split.
  - apply (proj1 (other_exceptions_propagate Z Z Z Z Z
             (fun _ _ _ => Raise (ValueError "bad input"))
             (fun _ g => ((g + 1)%Z, Ok tt))
             (fun _ => 0%Z) (fun _ g => g) plain_update
             (fun l => Finite (inject_Z l))
             pytorch_updater {| params := 10%Z; grads := 4%Z; device_id := (-1)%Z |}
             {| params := 10%Z; grads := 0%Z; device_id := (-1)%Z |}
             stub_batch false (ValueError "bad input") eq_refl)); discriminate.
  - apply (proj2 (other_exceptions_propagate Z Z Z Z Z
             (fun _ _ _ => Raise NotImplementedError)
             (fun _ g => ((g + 1)%Z, Ok tt))
             (fun _ => 0%Z) (fun _ g => g) plain_update
             (fun l => Finite (inject_Z l))
             pytorch_updater {| params := 10%Z; grads := 4%Z; device_id := (-1)%Z |}
             {| params := 10%Z; grads := 4%Z; device_id := (-1)%Z |}
             stub_batch true NotImplementedError eq_refl));
      [reflexivity | discriminate].
Defined.


Lemma stale_gradients_have_no_influence_witness :
  stub_call plain_update pytorch_updater
            {| params := 10%Z; grads := 7%Z; device_id := (-1)%Z |} stub_batch false
  = stub_call plain_update pytorch_updater stub_model stub_batch false.
Proof.
  apply (stale_gradients_have_no_influence Z Z Z Z Z
           (fun p _ _ => Ok p) (fun _ g => ((g + 1)%Z, Ok tt))
           (fun _ => 0%Z) (fun _ g => g) plain_update
           (fun l => Finite (inject_Z l))
           pytorch_updater stub_model stub_batch false 7%Z).
  - reflexivity.
  - left. split; reflexivity.
Defined.


End StepOutcome.

(* ================================================================== *)
(** * Utterance ids and transcript lines (lines 83-87 of [eval_char]) *)
(* ================================================================== *)

Module Transcript.

Import Character Examples Evaluation.
Local Open Scope nat_scope.

(** ** Strings *)

Fixpoint count_char (c : ascii) (s : string) : nat :=
  match s with
  | EmptyString => 0
  | String c' s' => (if Ascii.eqb c' c then 1 else 0) + count_char c s'
  end.

Lemma append_assoc (a b c : string) : ((a ++ b) ++ c = a ++ (b ++ c))%string.
Proof. induction a as [|x a IH]; simpl; [reflexivity|]. rewrite IH. reflexivity. Qed.

Lemma count_char_append (c : ascii) (a b : string) :
  count_char c (a ++ b)%string = count_char c a + count_char c b.
Proof. induction a as [|x a IH]; simpl; [reflexivity|]. rewrite IH. lia. Qed.

Lemma split_nonempty (sep : ascii) (s : string) : split sep s <> [].
Proof.
  destruct s as [|c s]; simpl; [discriminate|].
  destruct (Ascii.eqb c sep); [discriminate|].
  destruct (split sep s); discriminate.
Qed.

(** A string has one field more than it has separators. *)
Lemma split_length (sep : ascii) (s : string) :
  length (split sep s) = S (count_char sep s).
Proof.
  induction s as [|c s IH]; simpl; [reflexivity|].
  destruct (Ascii.eqb c sep); simpl; [rewrite IH; reflexivity|].
  destruct (split sep s) as [|w ws]; simpl in *; [discriminate|exact IH].
Qed.

Lemma split_fields_clean (sep : ascii) (s : string) :
  Forall (fun w => count_char sep w = 0) (split sep s).
Proof.
  induction s as [|c s IH]; simpl.
  - constructor; [reflexivity|constructor].
  - destruct (Ascii.eqb c sep) eqn:E.
    + constructor; [reflexivity|exact IH].
    + destruct (split sep s) as [|w ws]; simpl.
      * constructor; [simpl; rewrite E; reflexivity|constructor].
      * inversion IH as [|? ? Hw Hws]; subst.
        constructor; [simpl; rewrite E; exact Hw|exact Hws].
Qed.

(** Joining the fields with the separator gives the string back. *)
Lemma join_split (sep : ascii) (s : string) :
  join (String sep EmptyString) (split sep s) = s.
Proof.
  induction s as [|c s IH]; simpl; [reflexivity|].
  pose proof (split_nonempty sep s) as Hne.
  destruct (Ascii.eqb_spec c sep) as [->|Hc].
  - destruct (split sep s) as [|w ws]; [congruence|].
    simpl in *. rewrite IH. reflexivity.
  - destruct (split sep s) as [|w ws]; [congruence|].
    destruct ws as [|w' ws]; simpl in *; rewrite <- IH; reflexivity.
Qed.

Lemma join_two_more (sep : string) (pre : list string) (a b : string) :
  join sep (pre ++ [a; b])
  = match pre with
    | [] => (a ++ sep ++ b)%string
    | _ :: _ => (join sep pre ++ sep ++ a ++ sep ++ b)%string
    end.
Proof.
  induction pre as [|w pre IH]; [reflexivity|].
  destruct pre as [|w' pre].
  - reflexivity.
  - change (join sep ((w :: w' :: pre) ++ [a; b]))
      with (w ++ sep ++ join sep ((w' :: pre) ++ [a; b]))%string.
    rewrite IH.
    change (join sep (w :: w' :: pre))
      with (w ++ sep ++ join sep (w' :: pre))%string.
    rewrite !append_assoc. reflexivity.
Qed.

Lemma count_char_replace (a b : ascii) (s : string) :
  a <> b ->
  count_char b (replace_char a b s) = count_char a s + count_char b s
  /\ count_char a (replace_char a b s) = 0.
Proof.
  intros Hab. induction s as [|c s [IH1 IH2]]; simpl; [auto|].
  destruct (Ascii.eqb_spec c a) as [->|Hca].
  - rewrite Ascii.eqb_refl.
    destruct (Ascii.eqb_spec b a) as [E|_]; [congruence|].
    destruct (Ascii.eqb_spec a b) as [E|_]; [congruence|]. lia.
  - apply Ascii.eqb_neq in Hca. rewrite ?Hca.
    destruct (Ascii.eqb c b); lia.
Qed.

(** ** The last two fields *)

Lemma last_two {A : Type} (l : list A) :
  2 <= length l ->
  exists pre a b, l = pre ++ [a; b].
Proof.
  induction l as [|x l IH]; simpl; intros H; [lia|].
  destruct l as [|y l]; [simpl in H; lia|].
  destruct l as [|z l].
  - exists [], x, y. reflexivity.
  - destruct IH as (pre & a & b & E); [simpl; lia|].
    exists (x :: pre), a, b. rewrite E. reflexivity.
Qed.

Lemma last_two_indexed {A : Type} (pre : list A) (a b : A) :
  drop_last (pre ++ [a; b]) 2 = pre
  /\ index_from_end (pre ++ [a; b]) 2 = Ok a
  /\ index_from_end (pre ++ [a; b]) 1 = Ok b.
Proof.
  unfold drop_last, index_from_end, index.
  rewrite length_app. cbn [length].
  replace (length pre + 2 - 2) with (length pre) by lia.
  replace (length pre + 2 - 1) with (length pre + 1) by lia.
  replace (2 <=? length pre + 2) with true by (symmetry; apply Nat.leb_le; lia).
  replace (1 <=? length pre + 2) with true by (symmetry; apply Nat.leb_le; lia).
  split; [|split].
  - rewrite firstn_app, Nat.sub_diag, firstn_all. simpl. apply app_nil_r.
  - rewrite nth_error_app2 by lia. rewrite Nat.sub_diag. reflexivity.
  - rewrite nth_error_app2 by lia.
    replace (length pre + 1 - length pre) with 1 by lia. reflexivity.
Qed.

Lemma count_char_join (c : ascii) (sep : string) (l : list string) (w : string) :
  In w l -> count_char c w <= count_char c (join sep l).
Proof.
  induction l as [|x l IH]; simpl; [tauto|].
  destruct l as [|y l].
  - intros [->|[]]. lia.
  - rewrite !count_char_append. intros [->|H]; [lia|].
    specialize (IH H). lia.
Qed.

(** ** Parsing an utterance id *)

(** The utterance id with its dashes turned into underscores, and the
    number of dashes and underscores in it. *)
Definition normalised (utt : string) : string := replace_char "-" "_" utt.

Definition separators (s : string) : nat := count_char "-" s + count_char "_" s.

Lemma fields_count (utt : string) :
  length (split "_" (normalised utt)) = S (separators utt).
Proof.
  rewrite split_length. unfold normalised, separators.
  rewrite (proj1 (count_char_replace "-" "_" utt ltac:(discriminate))).
  reflexivity.
Qed.

(** The transcript suffix exists exactly for utterance ids with at least
    one separator (a dash or an underscore), that is with at least two
    fields; without any, taking the second-to-last field raises
    [IndexError]. *)
Theorem trn_suffix_needs_a_separator (utt : string) :
  (separators utt = 0 -> trn_suffix utt = Raise IndexError)
  /\ (1 <= separators utt -> exists suffix, trn_suffix utt = Ok suffix).
Proof.
  pose proof (fields_count utt) as Hlen. unfold normalised in Hlen. split.
  - intros H. unfold trn_suffix, index_from_end. rewrite Hlen, H. reflexivity.
  - intros H. apply trn_suffix_two_fields. rewrite Hlen. lia.
Qed.

Lemma trn_suffix_needs_a_separator_witness :
  trn_suffix "utt1" = Raise IndexError
  /\ exists suffix, trn_suffix "0001-0002" = Ok suffix.
Proof.
  split.
  - apply (proj1 (trn_suffix_needs_a_separator "utt1")). reflexivity.
  - apply (proj2 (trn_suffix_needs_a_separator "0001-0002")).
    vm_compute. lia.
Defined.

(** When the suffix exists it reads [ (speaker-start-end)] and a newline,
    where [start] and [end] are free of separators and the three parts,
    joined by underscores, are the utterance id with its dashes turned
    into underscores (just [start_end] when the id has only two
    fields). *)
Theorem trn_suffix_parts (utt suffix : string) :
  trn_suffix utt = Ok suffix ->
  exists speaker start end_,
    suffix = (" (" ++ speaker ++ "-" ++ start ++ "-" ++ end_ ++ ")" ++ nl)%string
    /\ separators start = 0
    /\ separators end_ = 0
    /\ ((speaker = "" /\ normalised utt = (start ++ "_" ++ end_)%string)
        \/ normalised utt = (speaker ++ "_" ++ start ++ "_" ++ end_)%string).
Proof.
  intros Hok.
  destruct (Nat.eq_dec (separators utt) 0) as [Hzero|Hpos].
  { unfold trn_suffix, index_from_end in Hok. fold (normalised utt) in Hok.
    rewrite (fields_count utt), Hzero in Hok. discriminate. }
  pose proof (fields_count utt) as Hlen.
  destruct (last_two (split "_" (normalised utt)) ltac:(lia))
    as (pre & a & b & Efields).
  destruct (last_two_indexed pre a b) as (Hdrop & Ha & Hb).
  unfold trn_suffix in Hok. fold (normalised utt) in Hok. cbv zeta in Hok.
  rewrite Efields, Hdrop, Ha, Hb in Hok. cbn [Py.bind] in Hok.
  injection Hok as <-.
  pose proof (join_split "_" (normalised utt)) as Hjoin.
  rewrite Efields in Hjoin.
  pose proof (split_fields_clean "_" (normalised utt)) as Hclean.
  rewrite Efields, Forall_forall in Hclean.
  assert (Hdash : count_char "-" (normalised utt) = 0)
    by apply (proj2 (count_char_replace "-" "_" utt ltac:(discriminate))).
  assert (Hpart : forall w, In w (pre ++ [a; b]) -> separators w = 0).
  { intros w Hw. unfold separators. rewrite (Hclean w Hw).
    pose proof (count_char_join "-" "_" _ w Hw) as Hle.
    rewrite Hjoin, Hdash in Hle. lia. }
  exists (join "_" pre), a, b.
  split; [reflexivity|].
  split; [apply Hpart, in_or_app; right; simpl; auto|].
  split; [apply Hpart, in_or_app; right; simpl; auto|].
  rewrite join_two_more in Hjoin.
  destruct pre as [|w pre]; [left|right]; auto.
Qed.

Lemma trn_suffix_parts_witness :
  exists speaker start end_,
    (" (spk_a-0001-0002)" ++ nl)%string
    = (" (" ++ speaker ++ "-" ++ start ++ "-" ++ end_ ++ ")" ++ nl)%string
    /\ separators start = 0.
Proof.
  destruct (trn_suffix_parts "spk-a_0001-0002" (" (spk_a-0001-0002)" ++ nl)%string
              eq_refl)
    as (speaker & start & end_ & Hs & Hstart & _).
  exists speaker, start, end_. split; assumption.
Defined.

End Transcript.

(* ================================================================== *)
(** * Further properties of [eval_char] *)
(* ================================================================== *)

Module EvaluationOutcome.

Import Character Examples Evaluation.
Local Open Scope nat_scope.

(** [raises_only P c]: whatever [c] raises satisfies [P]. *)
Definition raises_only {A : Type} (P : exn -> Prop) (c : outcome A) : Prop :=
  forall e, c = Raise e -> P e.

Lemma raises_only_ok {A : Type} (P : exn -> Prop) (a : A) : raises_only P (Ok a).
Proof. intros e H. discriminate H. Qed.

Lemma raises_only_bind {A B : Type} (P : exn -> Prop) (c : outcome A)
      (k : A -> outcome B) :
  raises_only P c -> (forall a, raises_only P (k a)) -> raises_only P (Py.bind c k).
Proof.
  intros Hc Hk e. destruct c as [a|e']; simpl.
  - apply Hk.
  - intros [= <-]. apply Hc. reflexivity.
Qed.

Lemma raises_only_weaken {A : Type} (P Q : exn -> Prop) (c : outcome A) :
  (forall e, P e -> Q e) -> raises_only P c -> raises_only Q c.
Proof. intros HPQ Hc e He. apply HPQ, Hc, He. Qed.

Definition is_index_error (e : exn) : Prop := e = IndexError.

Lemma index_raises {A : Type} (l : list A) (i : nat) :
  raises_only is_index_error (index l i).
Proof.
  intros e. unfold index. destruct (nth_error l i); [discriminate|].
  intros [= <-]. reflexivity.
Qed.

Lemma index_from_end_raises {A : Type} (l : list A) (k : nat) :
  raises_only is_index_error (index_from_end l k).
Proof.
  unfold index_from_end. destruct (k <=? length l); [apply index_raises|].
  intros e [= <-]. reflexivity.
Qed.

Lemma map_outcome_raises {A B : Type} (P : exn -> Prop) (f : A -> outcome B)
      (l : list A) :
  (forall x, raises_only P (f x)) -> raises_only P (map_outcome f l).
Proof.
  intros Hf. induction l as [|x l IH]; simpl; [apply raises_only_ok|].
  apply raises_only_bind; [apply Hf|]. intros y.
  apply raises_only_bind; [exact IH|]. intros ys. apply raises_only_ok.
Qed.

Lemma trn_suffix_raises (utt : string) :
  raises_only is_index_error (trn_suffix utt).
Proof.
  unfold trn_suffix.
  apply raises_only_bind; [apply index_from_end_raises|]. intros a.
  apply raises_only_bind; [apply index_from_end_raises|]. intros b.
  apply raises_only_ok.
Qed.

Section EvalChar.

Variable Feature Hyp Model : Type.
Variable model_decode : Model -> list Feature -> list Hyp * list nat.
Variable idx2char : Hyp -> string.
Variable compute_wer : list string -> list string -> Q * Q * Q * Q.

Local Abbreviation batch := (batch Feature).
Local Abbreviation dataset := (dataset Feature).
Local Abbreviation eval_utt := (eval_utt Feature Hyp idx2char compute_wer).
Local Abbreviation eval_batch :=
  (eval_batch Feature Hyp Model model_decode idx2char compute_wer).
Local Abbreviation eval_batches :=
  (eval_batches Feature Hyp Model model_decode idx2char compute_wer).
Local Abbreviation eval_char :=
  (eval_char Feature Hyp Model model_decode idx2char compute_wer).

Lemma word_level_with_character_labels (d : dataset) :
  character_labels _ d = true -> word_level _ d = Ok true.
Proof. intros H. unfold word_level. rewrite H. reflexivity. Qed.

Lemma for_range_raises (P : exn -> Prop) (body : stats -> nat -> outcome stats)
      (bs : list nat) (s : stats) :
  (forall s b, raises_only P (body s b)) -> raises_only P (for_range body bs s).
Proof.
  intros Hbody. revert s. induction bs as [|b bs IH]; intros s; simpl.
  - apply raises_only_ok.
  - apply raises_only_bind; [apply Hbody|]. intros s'. apply IH.
Qed.

Lemma eval_utt_raises (d : dataset) (bt : batch) (best_hyps : list Hyp)
      (ys_perm : list string) (s : stats) (b : nat) :
  character_labels _ d = true ->
  raises_only is_index_error (eval_utt d bt best_hyps ys_perm s b).
Proof.
  intros Hlabels. unfold Character.eval_utt.
  rewrite (word_level_with_character_labels d Hlabels).
  apply raises_only_bind; [apply index_raises|]. intros ref.
  apply raises_only_bind; [apply index_raises|]. intros h.
  apply raises_only_bind; [apply index_raises|]. intros utt.
  apply raises_only_bind; [apply trn_suffix_raises|]. intros suffix.
  cbn [Py.bind].
  destruct (compute_wer (split " " ref) (split " " (idx2char h)))
    as [[[wer_b sub_b] ins_b] del_b].
  destruct (compute_wer (chars (remove_char " " ref))
                        (chars (remove_char " " (idx2char h))))
    as [[[cer_b sub_c] ins_c] del_c].
  apply raises_only_ok.
Qed.

Lemma eval_batches_raises (d : dataset) (model : Model) (pending : list batch)
      (s : stats) :
  character_labels _ d = true ->
  raises_only is_index_error (eval_batches d model s pending).
Proof.
  intros Hlabels.
  assert (Hbatch : forall s bt, raises_only is_index_error (eval_batch d model s bt)).
  { intros s' bt. unfold Character.eval_batch.
    destruct (model_decode model (xs _ bt)) as [best_hyps perm_idx].
    apply raises_only_bind.
    - apply map_outcome_raises. intros i. apply index_raises.
    - intros ys_perm. apply for_range_raises. intros s'' b.
      apply eval_utt_raises. exact Hlabels. }
  revert s. induction pending as [|bt pending IH]; intros s; simpl.
  - apply Hbatch.
  - apply raises_only_bind; [apply Hbatch|]. intros s'. apply IH.
Qed.

Lemma true_div_raises (a b : Q) :
  raises_only (fun e => e = ZeroDivisionError) (true_div a b).
Proof.
  unfold true_div. destruct (Qeq_bool b 0); [|apply raises_only_ok].
  intros e [= <-]. reflexivity.
Qed.

(** On a dataset with character labels (and no 'nowb') the unbound name is
    never read: whatever [eval_char] raises is an [IndexError] from its
    indexing or a [ZeroDivisionError] from the final rates, never a
    [NameError]. *)
Theorem character_labels_avoid_the_unbound_name
        (models : list Model) (d : dataset) (e : exn) :
  contains "character" (label_type _ d) = true ->
  contains "nowb" (label_type _ d) = false ->
  eval_char models d = Raise e ->
  e = IndexError \/ e = ZeroDivisionError.
Proof.
  intros Hchar Hnowb.
  assert (Hlabels : character_labels _ d = true)
    by (unfold character_labels; rewrite Hchar, Hnowb; reflexivity).
  revert e.
  change (raises_only (fun e => e = IndexError \/ e = ZeroDivisionError)
                      (eval_char models d)).
  unfold Character.eval_char.
  rewrite (word_level_with_character_labels d Hlabels).
  apply raises_only_bind.
  { apply raises_only_weaken with (P := is_index_error); [left; assumption|].
    apply index_raises. }
  intros model. apply raises_only_bind.
  { apply raises_only_weaken with (P := is_index_error); [left; assumption|].
    apply eval_batches_raises. exact Hlabels. }
  intros s. cbn [Py.bind].
  repeat (apply raises_only_bind;
          [apply raises_only_weaken with (P := fun e => e = ZeroDivisionError);
           [right; assumption|];
           repeat (apply raises_only_bind; [apply true_div_raises|]; intros ?);
           try apply raises_only_ok; try apply true_div_raises
          |intros ?]).
  apply raises_only_ok.
Qed.

(** ** Datasets without character labels *)

Definition name_or_index_error (e : exn) : Prop :=
  e = NameError "task_index" \/ e = IndexError.

Lemma index_error_is_allowed {A : Type} (c : outcome A) :
  raises_only is_index_error c -> raises_only name_or_index_error c.
Proof. apply raises_only_weaken. intros e He. right. exact He. Qed.

Lemma word_level_raises_only (d : dataset) :
  raises_only name_or_index_error (word_level _ d).
Proof.
  unfold word_level. destruct (character_labels _ d); [apply raises_only_ok|].
  rewrite task_index_unbound. intros e [= <-]. left. reflexivity.
Qed.

Lemma eval_utt_raises_any (d : dataset) (bt : batch) (best_hyps : list Hyp)
      (ys_perm : list string) (s : stats) (b : nat) :
  raises_only name_or_index_error (eval_utt d bt best_hyps ys_perm s b).
Proof.
  unfold Character.eval_utt.
  apply raises_only_bind; [apply index_error_is_allowed, index_raises|]. intros ref.
  apply raises_only_bind; [apply index_error_is_allowed, index_raises|]. intros h.
  apply raises_only_bind; [apply index_error_is_allowed, index_raises|]. intros utt.
  apply raises_only_bind; [apply index_error_is_allowed, trn_suffix_raises|].
  intros suffix.
  apply raises_only_bind; [apply word_level_raises_only|]. intros word.
  destruct (compute_wer (split " " ref) (split " " (idx2char h)))
    as [[[wer_b sub_b] ins_b] del_b].
  destruct (compute_wer (chars (remove_char " " ref))
                        (chars (remove_char " " (idx2char h))))
    as [[[cer_b sub_c] ins_c] del_c].
  destruct word; apply raises_only_ok.
Qed.

Lemma eval_batches_raises_any (d : dataset) (model : Model) (pending : list batch)
      (s : stats) :
  raises_only name_or_index_error (eval_batches d model s pending).
Proof.
  assert (Hbatch : forall s bt,
            raises_only name_or_index_error (eval_batch d model s bt)).
  { intros s' bt. unfold Character.eval_batch.
    destruct (model_decode model (xs _ bt)) as [best_hyps perm_idx].
    apply raises_only_bind.
    - apply index_error_is_allowed, map_outcome_raises. intros i. apply index_raises.
    - intros ys_perm. apply for_range_raises. intros s'' b.
      apply eval_utt_raises_any. }
  revert s. induction pending as [|bt pending IH]; intros s; simpl.
  - apply Hbatch.
  - apply raises_only_bind; [apply Hbatch|]. intros s'. apply IH.
Qed.

(** C10, amended.  For a dataset whose label type does not contain
    'character', or contains 'nowb', evaluating the word-level condition
    raises [NameError] for [task_index], a name that nothing binds.
    [eval_char] therefore never returns on such a dataset: it raises this
    [NameError], unless the indexing that comes before the condition
    ([models[0]], the references under the permutation, the hypothesis,
    the utterance id and its last two fields) raises [IndexError] first.
    When that bookkeeping is in order the exception is the [NameError].
    The condition can only come out true, and only through its
    character-label branch. *)
Theorem eval_char_name_error (models : list Model) (d : dataset) :
  contains "character" (label_type _ d) = false
  \/ contains "nowb" (label_type _ d) = true ->
  word_level _ d = Raise (NameError "task_index")
  /\ (exists e, eval_char models d = Raise e
                /\ (e = NameError "task_index" \/ e = IndexError))
  /\ (forall model rest,
        models = model :: rest ->
        Forall (fun bt => ready Feature Hyp Model model_decode model bt = true)
               (first_batches _ d ++ [last_batch _ d]) ->
        eval_char models d = Raise (NameError "task_index"))
  /\ (forall (d' : dataset) flag,
        word_level _ d' = Ok flag ->
        flag = true
        /\ contains "character" (label_type _ d') = true
        /\ contains "nowb" (label_type _ d') = false).
Proof.
  intros Hlabel.
  assert (Hlabels : character_labels _ d = false).
  { unfold character_labels. destruct Hlabel as [H|H]; rewrite H.
    - reflexivity.
    - apply andb_false_r. }
  pose proof (word_level_raises Feature d Hlabels) as Hword.
  split; [exact Hword|]. split; [|split].
  - destruct (eval_char models d) as [r|e] eqn:E.
    + exfalso. unfold Character.eval_char in E.
      destruct (index models 0); [|discriminate]. cbn [Py.bind] in E.
      destruct (Character.eval_batches _ _ _ _ _ _ _ _ _ _); [|discriminate].
      cbn [Py.bind] in E. rewrite Hword in E. discriminate.
    + exists e. split; [reflexivity|]. revert e E.
      change (raises_only name_or_index_error (eval_char models d)).
      unfold Character.eval_char. rewrite Hword.
      apply raises_only_bind; [apply index_error_is_allowed, index_raises|].
      intros model.
      apply raises_only_bind; [apply eval_batches_raises_any|]. intros s.
      intros e [= <-]. left. reflexivity.
  - intros model rest -> Hall. unfold Character.eval_char.
    cbn [index nth_error Py.bind].
    destruct (eval_batches_ready Feature Hyp Model model_decode idx2char compute_wer
                d model (first_batches _ d) stats0 Hlabels Hall)
      as [E|E]; rewrite E; cbn [Py.bind]; [rewrite Hword|]; reflexivity.
  - intros d' flag H.
    destruct (word_level_returns Feature d' flag H) as [Hc ->].
    unfold character_labels in Hc. apply andb_true_iff in Hc.
    destruct Hc as [Hc Hn]. apply negb_true_iff in Hn. auto.
Qed.

(** ** What the sub-task label type does *)

(** The dataset with another [label_type_sub]. *)
Definition with_label_type_sub (d : dataset) (sub : string) : dataset :=
  {| label_type := label_type _ d; label_type_sub := sub;
     first_batches := first_batches _ d; last_batch := last_batch _ d |}.

Lemma word_level_ignores_sub (d : dataset) (sub : string) :
  word_level _ (with_label_type_sub d sub) = word_level _ d.
Proof.
  unfold word_level, character_labels. cbn [label_type with_label_type_sub].
  destruct (contains "character" (label_type _ d)
            && negb (contains "nowb" (label_type _ d))); [reflexivity|].
  rewrite !task_index_unbound. reflexivity.
Qed.

Lemma for_range_ext (f g : stats -> nat -> outcome stats) (bs : list nat) (s : stats) :
  (forall s b, f s b = g s b) -> for_range f bs s = for_range g bs s.
Proof.
  intros Hfg. revert s. induction bs as [|b bs IH]; intros s; simpl; [reflexivity|].
  rewrite Hfg. destruct (g s b); simpl; [apply IH|reflexivity].
Qed.

Lemma eval_batch_ignores_sub (d : dataset) (sub : string) (model : Model)
      (s : stats) (bt : batch) :
  eval_batch (with_label_type_sub d sub) model s bt = eval_batch d model s bt.
Proof.
  unfold Character.eval_batch.
  destruct (model_decode model (xs _ bt)) as [best_hyps perm_idx].
  destruct (map_outcome (index (ys _ bt)) perm_idx); [|reflexivity].
  cbn [Py.bind]. apply for_range_ext. intros s' b.
  unfold Character.eval_utt. rewrite word_level_ignores_sub. reflexivity.
Qed.

(** [label_type_sub] has no influence on [eval_char]: the only place that
    would read it lies behind the unbound name. *)
Theorem label_type_sub_is_never_consulted
        (models : list Model) (d : dataset) (sub : string) :
  eval_char models (with_label_type_sub d sub) = eval_char models d.
Proof.
  unfold Character.eval_char. rewrite word_level_ignores_sub.
  destruct (index models 0) as [model|e]; [|reflexivity]. cbn [Py.bind].
  replace (Character.eval_batches Feature Hyp Model model_decode idx2char compute_wer
             (with_label_type_sub d sub) model stats0
             (first_batches _ (with_label_type_sub d sub)))
    with (eval_batches d model stats0 (first_batches _ d)); [reflexivity|].
  cbn [first_batches with_label_type_sub].
  generalize stats0. induction (first_batches _ d) as [|bt pending IH]; intros s.
  - cbn [Character.eval_batches last_batch with_label_type_sub].
    symmetry. apply eval_batch_ignores_sub.
  - cbn [Character.eval_batches]. rewrite eval_batch_ignores_sub.
    destruct (eval_batch d model s bt); cbn [Py.bind]; [apply IH|reflexivity].
Qed.

(** ** A dataset without utterances *)

Lemma eval_batch_without_utterances (d : dataset) (model : Model) (s : stats)
      (bt : batch) :
  xs _ bt = [] ->
  forallb (fun i => i <? length (ys _ bt)) (snd (model_decode model [])) = true ->
  eval_batch d model s bt = Ok s.
Proof.
  intros Hxs Hperm. unfold Character.eval_batch. rewrite Hxs.
  destruct (model_decode model []) as [best_hyps perm_idx]. cbn [snd] in Hperm.
  destruct (map_outcome_index (ys _ bt) perm_idx Hperm) as (ys_perm & Hys & _).
  rewrite Hys. reflexivity.
Qed.

(** With character labels and no utterance in any batch, nothing is
    accumulated and the first of the final divisions, by a word count of
    zero, raises [ZeroDivisionError]. *)
Theorem no_utterances_divide_by_zero
        (model : Model) (rest : list Model) (d : dataset) :
  character_labels _ d = true ->
  Forall (fun bt =>
            xs _ bt = []
            /\ forallb (fun i => i <? length (ys _ bt))
                       (snd (model_decode model [])) = true)
         (first_batches _ d ++ [last_batch _ d]) ->
  eval_char (model :: rest) d = Raise ZeroDivisionError.
Proof.
  intros Hlabels Hall. unfold Character.eval_char.
  cbn [index nth_error Py.bind].
  assert (Hloop : forall s, eval_batches d model s (first_batches _ d) = Ok s).
  { induction (first_batches _ d) as [|bt pending IH]; intros s.
    - inversion Hall as [|? ? [Hxs Hperm] _]; subst.
      cbn [Character.eval_batches]. apply eval_batch_without_utterances; assumption.
    - inversion Hall as [|? ? [Hxs Hperm] Hrest]; subst.
      cbn [Character.eval_batches].
      rewrite (eval_batch_without_utterances d model s bt Hxs Hperm).
      cbn [Py.bind]. apply IH. exact Hrest. }
  rewrite Hloop. cbn [Py.bind].
  rewrite (word_level_with_character_labels d Hlabels). reflexivity.
Qed.

End EvalChar.

(** ** Concrete runs *)

Lemma eval_char_name_error_witness :
  stub_eval_char [tt] word_dataset = Raise (NameError "task_index").
Proof.
  destruct (eval_char_name_error Z Z unit stub_model_decode stub_idx2char
              stub_compute_wer [tt] word_dataset (or_introl eq_refl))
    as (_ & _ & H & _).
  apply (H tt [] eq_refl).
  repeat constructor.
Defined.

(** C10, as stated, fails: on a dataset with word labels whose utterance
    id 'utt1' has a single field, taking its second-to-last field on line
    84 raises [IndexError] before the word-level condition is reached, so
    the exception that leaves [eval_char] is not the [NameError]. *)
Lemma bare_utterance_id_raises_index_error :
  contains "character" (label_type _ bare_id_dataset) = false
  /\ stub_eval_char [tt] bare_id_dataset = Raise IndexError
  /\ stub_eval_char [tt] bare_id_dataset <> Raise (NameError "task_index").
Proof. repeat split. discriminate. Qed.

(** A dataset with character labels and one batch without utterances. *)
Definition empty_character_dataset : Character.dataset Z :=
  {| label_type := "character"; label_type_sub := "";
     first_batches := [];
     last_batch := {| xs := []; ys := []; utt_ids := [] |} |}.

Lemma no_utterances_divide_by_zero_witness :
  stub_eval_char [tt] empty_character_dataset = Raise ZeroDivisionError.
Proof.
  apply (no_utterances_divide_by_zero Z Z unit stub_model_decode stub_idx2char
           stub_compute_wer tt [] empty_character_dataset eq_refl).
  repeat constructor.
Defined.

Lemma character_labels_avoid_the_unbound_name_witness :
  ZeroDivisionError = IndexError \/ ZeroDivisionError = ZeroDivisionError.
Proof.
  exact (character_labels_avoid_the_unbound_name Z Z unit stub_model_decode
           stub_idx2char stub_compute_wer [tt] empty_character_dataset
           ZeroDivisionError eq_refl eq_refl eq_refl).
Defined.

End EvaluationOutcome.
